(** * The language-model registry of [src/lib/ai/models.ts]

    A shallow embedding of the module's catalog ([allModels]), its metadata
    store ([modelMetadata]), the resolver ([getModel], [fallbackModel]) and
    the refresh coordinator ([refreshModels]), followed by the properties
    the specification states about them.

    Conventions of the embedding.
    - A JavaScript object used as a dictionary is a [gmap] over its own
      string keys; property names inherited from [Object.prototype] are
      outside the model.
    - A [LanguageModel] is an opaque object; its identity is the allocation
      number [lm_id], drawn from the counter [nextObjectId] of the state.
    - A function that can throw returns a [result]; asynchronous code is a
      transition system whose steps are the synchronous stretches between
      two [await]s. *)

From Stdlib Require Import ZArith String Ascii.
From stdpp Require Import gmap strings list fin_maps sorting.

Open Scope string_scope.

(** ** Strings: [startsWith] and the key separator *)

(** [key.startsWith(p)] is [String.prefix p key]. *)
Definition startsWith (key p : string) : bool := String.prefix p key.

(** A string without the character [:]. *)
Fixpoint colonFree (s : string) : bool :=
  match s with
  | EmptyString => true
  | String c s' => negb (Ascii.eqb c ":"%char) && colonFree s'
  end.

(** ** Data model *)

(** The opaque handle the provider SDKs return. *)
Record LanguageModel := {
  lm_id : nat;
  lm_provider : string;
  lm_modelId : string;
}.

(** [type ProviderFactory = (model: string) => LanguageModel]; the extra
    argument is the identity the new object gets. *)
Abbreviation ProviderFactory := (string → nat → LanguageModel).

Record RegisterOptions := {
  opt_displayName : option string;
  opt_apiName : option string;
  opt_isToolCallUnsupported : option bool;
  opt_isImageInputUnsupported : option bool;
  opt_model : option LanguageModel;
}.

Record ModelRegistration := {
  name : string;
  displayName : option string;
  apiName : option string;
  isToolCallUnsupported : option bool;
  isImageInputUnsupported : option bool;
}.

(** The value type of [modelMetadata]. *)
Record Metadata := {
  meta_displayName : option string;
  meta_isToolCallUnsupported : bool;
  meta_isImageInputUnsupported : bool;
}.

Record ChatModel := { provider : string; model : string }.

(** The module-level variables of the catalog. *)
Record Registry := {
  allModels : gmap string (gmap string LanguageModel);
  modelMetadata : gmap string Metadata;
  modelInstanceLookup : gmap nat string;
  providerHasExplicitKey : gmap string bool;
  nextObjectId : nat;
}.

Inductive result (A : Type) : Type :=
| Ok (a : A)
| Throw (msg : string).
Arguments Ok {A} a.
Arguments Throw {A} msg.

(** ** The fixed tables *)

Definition sdk (p : string) : ProviderFactory :=
  λ m id, {| lm_id := id; lm_provider := p; lm_modelId := m |}.

Definition providerFactories : gmap string ProviderFactory :=
  list_to_map
    [ ("openai", sdk "openai"); ("google", sdk "google");
      ("anthropic", sdk "anthropic"); ("xai", sdk "xai");
      ("ollama", sdk "ollama"); ("groq", sdk "groq");
      ("openRouter", sdk "openRouter") ].

Definition imageInputSupportedProviders : gset string :=
  list_to_set ["google"; "xai"; "openai"; "anthropic"].

Definition modelKey (provider name : string) : string :=
  provider ++ "::" ++ name.

Definition fallbackToolUnsupportedKeys : gset string :=
  list_to_set
    [ modelKey "openai" "o4-mini";
      modelKey "ollama" "gemma3:1b";
      modelKey "ollama" "gemma3:4b";
      modelKey "ollama" "gemma3:12b";
      modelKey "openRouter" "openai/gpt-oss-20b:free";
      modelKey "openRouter" "qwen/qwen3-8b:free";
      modelKey "openRouter" "qwen/qwen3-14b:free";
      modelKey "openRouter" "deepseek/deepseek-r1-0528:free";
      modelKey "openRouter" "google/gemini-2.0-flash-exp:free" ].

(** The same deny-list as (provider, model) pairs. *)
Definition toolUnsupportedPairs : list (string * string) :=
  [ ("openai", "o4-mini");
    ("ollama", "gemma3:1b");
    ("ollama", "gemma3:4b");
    ("ollama", "gemma3:12b");
    ("openRouter", "openai/gpt-oss-20b:free");
    ("openRouter", "qwen/qwen3-8b:free");
    ("openRouter", "qwen/qwen3-14b:free");
    ("openRouter", "deepseek/deepseek-r1-0528:free");
    ("openRouter", "google/gemini-2.0-flash-exp:free") ].

(** [!!key && key !== "****"] *)
Definition hasValidKey (key : option string) : bool :=
  match key with
  | None => false
  | Some k => negb (String.eqb k EmptyString) && negb (String.eqb k "****")
  end.

(** [a || b] on an optional string: the empty string is falsy. *)
Definition orString (a : option string) (b : string) : string :=
  match a with
  | Some s => if String.eqb s EmptyString then b else s
  | None => b
  end.

(** ** Catalog operations *)

Section Catalog.

(** The factory table the operations consult; the module's own table is
    [providerFactories]. *)
Variable factories : gmap string ProviderFactory.

Definition resolveInstance (provider name : string) (options : RegisterOptions)
    (reg : Registry) : option LanguageModel :=
  match opt_model options with
  | Some m => Some m
  | None =>
    match factories !! provider with
    | Some factory => Some (factory (orString (opt_apiName options) name) (nextObjectId reg))
    | None => None
    end
  end.

(** Whether resolving the instance called a factory, i.e. built an object. *)
Definition allocates (provider : string) (options : RegisterOptions) : bool :=
  match opt_model options, factories !! provider with
  | None, Some _ => true
  | _, _ => false
  end.

Definition metadataOf (provider name : string) (options : RegisterOptions) : Metadata :=
  let key := modelKey provider name in
  {| meta_displayName := opt_displayName options;
     meta_isToolCallUnsupported :=
       default (bool_decide (key ∈ fallbackToolUnsupportedKeys))
               (opt_isToolCallUnsupported options);
     meta_isImageInputUnsupported :=
       default (negb (bool_decide (provider ∈ imageInputSupportedProviders)))
               (opt_isImageInputUnsupported options) |}.

Definition registerModel (provider name : string) (options : RegisterOptions)
    (reg : Registry) : Registry :=
  match resolveInstance provider name options reg with
  | None => reg
  | Some modelInstance =>
    let bucket := default ∅ (allModels reg !! provider) in
    let key := modelKey provider name in
    {| allModels := <[provider := <[name := modelInstance]> bucket]> (allModels reg);
       modelMetadata := <[key := metadataOf provider name options]> (modelMetadata reg);
       modelInstanceLookup := <[lm_id modelInstance := key]> (modelInstanceLookup reg);
       providerHasExplicitKey := providerHasExplicitKey reg;
       nextObjectId :=
         if allocates provider options then S (nextObjectId reg) else nextObjectId reg |}
  end.

Definition clearProvider (provider : string) (reg : Registry) : Registry :=
  let keys :=
    filter (λ key, startsWith key (provider ++ "::") = true)
           (map_to_list (modelMetadata reg)).*1 in
  {| allModels := delete provider (allModels reg);
     modelMetadata := foldl (λ m key, delete key m) (modelMetadata reg) keys;
     modelInstanceLookup := modelInstanceLookup reg;
     providerHasExplicitKey := providerHasExplicitKey reg;
     nextObjectId := nextObjectId reg |}.

(** A factory call allocates a new object. *)
Definition allocateObject (reg : Registry) : Registry :=
  {| allModels := allModels reg;
     modelMetadata := modelMetadata reg;
     modelInstanceLookup := modelInstanceLookup reg;
     providerHasExplicitKey := providerHasExplicitKey reg;
     nextObjectId := S (nextObjectId reg) |}.

(** [{ model: m }] as register options. *)
Definition withModel (m : LanguageModel) : RegisterOptions :=
  {| opt_displayName := None; opt_apiName := None;
     opt_isToolCallUnsupported := None; opt_isImageInputUnsupported := None;
     opt_model := Some m |}.

(** [allModels[provider]?.[name]] *)
Definition lookupModel (reg : Registry) (provider name : string) : option LanguageModel :=
  allModels reg !! provider ≫= λ providerModels, providerModels !! name.

(** ** Resolver *)

Definition fallbackProvider : string := "openai".
Definition fallbackModelName : string := "gpt-4.1".

Definition fallbackModel (reg : Registry) : result LanguageModel * Registry :=
  match lookupModel reg fallbackProvider fallbackModelName with
  | Some m => (Ok m, reg)
  | None =>
    match factories !! fallbackProvider with
    | Some factory =>
      let created := factory fallbackModelName (nextObjectId reg) in
      (Ok created,
       registerModel fallbackProvider fallbackModelName (withModel created)
                     (allocateObject reg))
    | None => (Throw "Fallback model is not available", reg)
    end
  end.

Definition getModel (ref : option ChatModel) (reg : Registry)
    : result LanguageModel * Registry :=
  match ref with
  | None => fallbackModel reg
  | Some m =>
    match lookupModel reg (provider m) (model m) with
    | Some selected => (Ok selected, reg)
    | None =>
      match factories !! provider m with
      | Some factory =>
        let fallback := factory (model m) (nextObjectId reg) in
        (Ok fallback,
         registerModel (provider m) (model m) (withModel fallback) (allocateObject reg))
      | None => fallbackModel reg
      end
    end
  end.


(** ** Seed loader *)

Definition seed (n : string) : ModelRegistration :=
  {| name := n; displayName := None; apiName := None;
     isToolCallUnsupported := None; isImageInputUnsupported := None |}.

Definition seedAs (n d : string) : ModelRegistration :=
  {| name := n; displayName := Some d; apiName := None;
     isToolCallUnsupported := None; isImageInputUnsupported := None |}.

Definition seedImage (n d : string) : ModelRegistration :=
  {| name := n; displayName := Some d; apiName := None;
     isToolCallUnsupported := None; isImageInputUnsupported := Some false |}.

Definition staticModelSeed : list (string * list ModelRegistration) :=
  [ ("openai",
     [ seed "gpt-4.1"; seed "gpt-4.1-mini"; seed "o4-mini"; seed "o3";
       seed "gpt-5"; seed "gpt-5-mini"; seed "gpt-5-nano" ]);
    ("google",
     [ seed "gemini-2.5-flash-lite"; seed "gemini-2.5-flash"; seed "gemini-2.5-pro" ]);
    ("anthropic",
     [ seedAs "claude-sonnet-4-5" "sonnet-4.5"; seedAs "claude-opus-4-1" "opus-4.1" ]);
    ("xai",
     [ seedAs "grok-4-fast-non-reasoning" "grok-4-fast"; seed "grok-4";
       seed "grok-3"; seed "grok-3-mini" ]);
    ("ollama", [ seed "gemma3:1b"; seed "gemma3:4b"; seed "gemma3:12b" ]);
    ("groq",
     [ seedImage "moonshotai/kimi-k2-instruct" "kimi-k2-instruct";
       seedImage "meta-llama/llama-4-scout-17b-16e-instruct" "llama-4-scout-17b";
       seedImage "openai/gpt-oss-20b" "gpt-oss-20b";
       seedImage "openai/gpt-oss-120b" "gpt-oss-120b";
       seedImage "qwen/qwen3-32b" "qwen3-32b" ]);
    ("openRouter",
     [ seedImage "openai/gpt-oss-20b:free" "gpt-oss-20b:free";
       seedImage "qwen/qwen3-8b:free" "qwen3-8b:free";
       seedImage "qwen/qwen3-14b:free" "qwen3-14b:free";
       seedImage "qwen/qwen3-coder:free" "qwen3-coder:free";
       seedImage "deepseek/deepseek-r1-0528:free" "deepseek-r1:free";
       seedImage "deepseek/deepseek-chat-v3-0324:free" "deepseek-v3:free";
       seedImage "google/gemini-2.0-flash-exp:free" "gemini-2.0-flash-exp:free" ]) ].

Definition emptyRegistry : Registry :=
  {| allModels := ∅; modelMetadata := ∅; modelInstanceLookup := ∅;
     providerHasExplicitKey := ∅; nextObjectId := 0 |}.

Definition registerSeed (provider : string) (reg : Registry) (entry : ModelRegistration)
    : Registry :=
  registerModel provider (name entry)
    {| opt_displayName := displayName entry;
       opt_apiName := apiName entry;
       opt_isToolCallUnsupported :=
         Some (default (bool_decide (modelKey provider (name entry)
                                     ∈ fallbackToolUnsupportedKeys))
                       (isToolCallUnsupported entry));
       opt_isImageInputUnsupported := isImageInputUnsupported entry;
       opt_model := None |}
    reg.

Definition loadStaticSeed (reg : Registry) : Registry :=
  foldl (λ r '(provider, models), foldl (registerSeed provider) r models)
        reg staticModelSeed.

(** What [openaiCompatibleModelsSafeParse] and [createOpenAICompatibleModels]
    hand to this module: the configured providers with their API keys, the
    handles built for them, and the handles flagged as lacking tool calls
    (by object identity). The two functions live in another file; their
    results are inputs here. *)
Record CompatibleConfig := {
  openaiCompatibleProviders : list (string * option string);
  openaiCompatibleModels : list (string * list (string * LanguageModel));
  openaiCompatibleUnsupportedModels : gset nat;
}.

Definition recordExplicitKey (reg : Registry) (p : string * option string) : Registry :=
  {| allModels := allModels reg;
     modelMetadata := modelMetadata reg;
     modelInstanceLookup := modelInstanceLookup reg;
     providerHasExplicitKey := <[p.1 := hasValidKey p.2]> (providerHasExplicitKey reg);
     nextObjectId := nextObjectId reg |}.

Definition registerCompatible (unsupported : gset nat) (provider : string)
    (reg : Registry) (entry : string * LanguageModel) : Registry :=
  registerModel provider entry.1
    {| opt_displayName := Some entry.1;
       opt_apiName := None;
       opt_isToolCallUnsupported := Some (bool_decide (lm_id entry.2 ∈ unsupported));
       opt_isImageInputUnsupported := Some false;
       opt_model := Some entry.2 |}
    reg.

Definition loadCompatible (cfg : CompatibleConfig) (reg : Registry) : Registry :=
  let reg1 := foldl recordExplicitKey reg (openaiCompatibleProviders cfg) in
  foldl (λ r '(provider, models),
           foldl (registerCompatible (openaiCompatibleUnsupportedModels cfg) provider)
                 r models)
        reg1 (openaiCompatibleModels cfg).

(** The registry once the module has been evaluated. *)
Definition moduleInit (cfg : CompatibleConfig) : Registry :=
  loadCompatible cfg (loadStaticSeed emptyRegistry).

End Catalog.

(** ** Credential checks, fetch table and catalog summary *)

(** The ways a loader's request can end: [fetch] rejects, the response is
    not [ok], the body does not have the expected shape, or the body is
    read into a list of registrations. *)
Inductive FetchOutcome :=
| NetworkFailure
| HttpFailure
| MalformedPayload
| Listing (models : list ModelRegistration).

(** What a loader does before its first [await]: return [[]] because the
    key is missing, or issue its request. *)
Inductive LoaderStart := ReturnsEmpty | IssuesRequest.

(** One element of the array given to [Promise.all]: already decided when
    the round starts, or waiting for its loader. *)
Inductive Slot := NoRequest | Requested.

Definition bind {A B} (r : result A) (k : A → result B) : result B :=
  match r with Ok a => k a | Throw e => Throw e end.

(** [try { body } catch { return handler }] *)
Definition tryCatch {A} (body : result A) (handler : A) : result A :=
  match body with Ok a => Ok a | Throw _ => Ok handler end.

(** [Promise.all]: rejects as soon as one element rejects. *)
Fixpoint promiseAll {A} (ps : list (result A)) : result (list A) :=
  match ps with
  | [] => Ok []
  | p :: ps' => bind p (λ a, bind (promiseAll ps') (λ l, Ok (a :: l)))
  end.

(** [Array.prototype.sort] with a comparator: [a] may stay before [b]
    when [cmp a b <= 0]. *)
Definition mayPrecede {A} (cmp : A → A → Z) : relation A :=
  λ a b, (cmp a b ≤ 0)%Z.

Global Instance mayPrecede_dec {A} (cmp : A → A → Z) (a b : A) :
  Decision (mayPrecede cmp a b).
Proof. unfold mayPrecede. apply _. Defined.

Definition sortWith {A} (cmp : A → A → Z) (l : list A) : list A :=
  merge_sort (mayPrecede cmp) l.

Section Refresh.

Variable factories : gmap string ProviderFactory.

(** [process.env] *)
Variable env : gmap string string.

(** [String.prototype.localeCompare] in the default locale, and with
    [{ sensitivity: "base" }]; both belong to the host. *)
Variable localeCompare : string → string → Z.
Variable localeCompareBase : string → string → Z.

Definition providerKeyCheckers : gmap string bool :=
  list_to_map
    [ ("openai", hasValidKey (env !! "OPENAI_API_KEY"));
      ("google", hasValidKey (env !! "GOOGLE_GENERATIVE_AI_API_KEY"));
      ("anthropic", hasValidKey (env !! "ANTHROPIC_API_KEY"));
      ("xai", hasValidKey (env !! "XAI_API_KEY"));
      ("groq", hasValidKey (env !! "GROQ_API_KEY"));
      ("openRouter", hasValidKey (env !! "OPENROUTER_API_KEY"));
      ("ollama", true) ].

Definition checkProviderAPIKey (reg : Registry) (provider : string) : bool :=
  match providerHasExplicitKey reg !! provider with
  | Some explicit => explicit
  | None =>
    match providerKeyCheckers !! provider with
    | Some checker => checker
    | None => true
    end
  end.

Definition keyedLoader (variable : string) : LoaderStart :=
  if hasValidKey (env !! variable) then IssuesRequest else ReturnsEmpty.

Definition fetchOpenAIModels : LoaderStart := keyedLoader "OPENAI_API_KEY".
Definition fetchGoogleModels : LoaderStart := keyedLoader "GOOGLE_GENERATIVE_AI_API_KEY".
Definition fetchAnthropicModels : LoaderStart := keyedLoader "ANTHROPIC_API_KEY".
Definition fetchXaiModels : LoaderStart := keyedLoader "XAI_API_KEY".
Definition fetchGroqModels : LoaderStart := keyedLoader "GROQ_API_KEY".
Definition fetchOpenRouterModels : LoaderStart := keyedLoader "OPENROUTER_API_KEY".
Definition fetchOllamaModels : LoaderStart := IssuesRequest.

Definition fetchers : list (string * LoaderStart) :=
  [ ("openai", fetchOpenAIModels);
    ("google", fetchGoogleModels);
    ("anthropic", fetchAnthropicModels);
    ("xai", fetchXaiModels);
    ("groq", fetchGroqModels);
    ("openRouter", fetchOpenRouterModels);
    ("ollama", fetchOllamaModels) ].

(** The rest of a loader once its request has ended. *)
Definition loaderSettles (o : FetchOutcome) : result (list ModelRegistration) :=
  match o with
  | NetworkFailure => Throw "fetch failed"
  | HttpFailure => Throw "Failed to load models"
  | MalformedPayload => Throw "unexpected payload"
  | Listing models => Ok models
  end.

(** The mapper of [Object.entries(fetchers).map], up to its [await]. *)
Definition mapperStart (reg : Registry) (f : string * LoaderStart) : string * Slot :=
  if negb (checkProviderAPIKey reg f.1) then (f.1, NoRequest)
  else match f.2 with
       | ReturnsEmpty => (f.1, NoRequest)
       | IssuesRequest => (f.1, Requested)
       end.

(** The value the mapper's promise settles with. *)
Definition mapperResult (outcomes : string → FetchOutcome) (s : string * Slot)
    : result (string * list ModelRegistration) :=
  tryCatch
    (match s.2 with
     | NoRequest => Ok (s.1, [])
     | Requested => bind (loaderSettles (outcomes s.1)) (λ models, Ok (s.1, models))
     end)
    (s.1, []).

Definition registerEntry (provider : string) (reg : Registry) (entry : ModelRegistration)
    : Registry :=
  registerModel factories provider (name entry)
    {| opt_displayName := displayName entry;
       opt_apiName := apiName entry;
       opt_isToolCallUnsupported := isToolCallUnsupported entry;
       opt_isImageInputUnsupported := isImageInputUnsupported entry;
       opt_model := None |}
    reg.

(** The body of [results.forEach]. *)
Definition applyResult (reg : Registry) (r : string * list ModelRegistration) : Registry :=
  match r.2 with
  | [] => reg
  | _ :: _ => foldl (registerEntry r.1) (clearProvider r.1 reg) r.2
  end.

Definition applyResults (results : list (string * list ModelRegistration))
    (reg : Registry) : Registry :=
  foldl applyResult reg results.

(** The inner async function of [refreshModels] from [await Promise.all]
    on, without the assignment to [lastRefreshAt]. *)
Definition roundBody (slots : list (string * Slot)) (outcomes : string → FetchOutcome)
    (reg : Registry) : result Registry :=
  bind (promiseAll (map (mapperResult outcomes) slots))
       (λ results, Ok (applyResults results reg)).

(** *** [buildModelsInfo] *)

Record ModelInfo := {
  mi_name : string;
  mi_displayName : option string;
  mi_isToolCallUnsupported : bool;
  mi_isImageInputUnsupported : bool;
}.

Record ProviderInfo := {
  pi_provider : string;
  pi_hasAPIKey : bool;
  pi_models : list ModelInfo;
}.

Definition modelInfo (reg : Registry) (provider n : string) : ModelInfo :=
  let meta := modelMetadata reg !! modelKey provider n in
  {| mi_name := n;
     mi_displayName :=
       match meta ≫= meta_displayName with
       | Some d => if String.eqb d EmptyString || String.eqb d n then None else Some d
       | None => None
       end;
     mi_isToolCallUnsupported := default false (meta_isToolCallUnsupported <$> meta);
     mi_isImageInputUnsupported :=
       default (negb (bool_decide (provider ∈ imageInputSupportedProviders)))
               (meta_isImageInputUnsupported <$> meta) |}.

Definition label (a : ModelInfo) : string := orString (mi_displayName a) (mi_name a).

Definition buildModelsInfo (reg : Registry) : list ProviderInfo :=
  sortWith (λ a b, localeCompare (pi_provider a) (pi_provider b))
    (map (λ '(provider, models),
            {| pi_provider := provider;
               pi_hasAPIKey := checkProviderAPIKey reg provider;
               pi_models :=
                 sortWith (λ a b, localeCompareBase (label a) (label b))
                          (map (modelInfo reg provider) (map_to_list models).*1) |})
         (map_to_list (allModels reg))).

(** ** The refresh coordinator as a transition system *)

Inductive PromiseState :=
| Pending (slots : list (string * Slot))
| Fulfilled
| Rejected.

(** A call of [refreshModels]: over, or suspended at [await currentRefresh]
    (the call that started the round), or returned [currentRefresh] and so
    tied to that promise. *)
Inductive Caller :=
| Returned
| Failed
| AwaitingOwn (r : nat)
| AwaitingShared (r : nat).

Record Machine := {
  registry : Registry;
  lastRefreshAt : Z;
  currentRefresh : option nat;
  promises : list PromiseState;
  callers : list Caller;
  requests : list (nat * string);
}.

Definition addCaller (c : Caller) (m : Machine) : Machine :=
  {| registry := registry m; lastRefreshAt := lastRefreshAt m;
     currentRefresh := currentRefresh m; promises := promises m;
     callers := callers m ++ [c]; requests := requests m |}.

(** The requests a starting round puts on the network. *)
Definition issued (r : nat) (slots : list (string * Slot)) : list (nat * string) :=
  omap (λ s : string * Slot,
          match s.2 with Requested => Some (r, s.1) | NoRequest => None end)
       slots.

(** [refreshModels(force)] up to its first suspension, called when
    [Date.now()] is [now]. *)
Definition refreshModels (force : bool) (now : Z) (m : Machine) : Machine :=
  if negb force && (now - lastRefreshAt m <? 1000 * 60 * 5)%Z then
    addCaller Returned m
  else
    match currentRefresh m with
    | Some r => addCaller (AwaitingShared r) m
    | None =>
      let r := length (promises m) in
      let slots := map (mapperStart (registry m)) fetchers in
      {| registry := registry m;
         lastRefreshAt := lastRefreshAt m;
         currentRefresh := Some r;
         promises := promises m ++ [Pending slots];
         callers := callers m ++ [AwaitingOwn r];
         requests := requests m ++ issued r slots |}
    end.

(** All fetches of round [r] have ended; the inner async function runs to
    its end, at time [now]. *)
Definition settle (r : nat) (outcomes : string → FetchOutcome) (now : Z) (m : Machine)
    : option Machine :=
  match promises m !! r with
  | Some (Pending slots) =>
    match roundBody slots outcomes (registry m) with
    | Ok reg' =>
      Some {| registry := reg'; lastRefreshAt := now;
              currentRefresh := currentRefresh m;
              promises := <[r := Fulfilled]> (promises m);
              callers := callers m; requests := requests m |}
    | Throw _ =>
      Some {| registry := registry m; lastRefreshAt := lastRefreshAt m;
              currentRefresh := currentRefresh m;
              promises := <[r := Rejected]> (promises m);
              callers := callers m; requests := requests m |}
    end
  | _ => None
  end.

Definition setCaller (c : nat) (st : Caller) (clear : bool) (m : Machine) : Machine :=
  {| registry := registry m; lastRefreshAt := lastRefreshAt m;
     currentRefresh := if clear then None else currentRefresh m;
     promises := promises m;
     callers := <[c := st]> (callers m); requests := requests m |}.

(** The continuation of caller [c]: after [await currentRefresh] the
    starter runs [currentRefresh = null]; a rejection is rethrown at the
    [await], before that assignment. *)
Definition resume (c : nat) (m : Machine) : option Machine :=
  match callers m !! c with
  | Some (AwaitingOwn r) =>
    match promises m !! r with
    | Some Fulfilled => Some (setCaller c Returned true m)
    | Some Rejected => Some (setCaller c Failed false m)
    | _ => None
    end
  | Some (AwaitingShared r) =>
    match promises m !! r with
    | Some Fulfilled => Some (setCaller c Returned false m)
    | Some Rejected => Some (setCaller c Failed false m)
    | _ => None
    end
  | _ => None
  end.

Definition resolve (ref : option ChatModel) (m : Machine) : Machine :=
  {| registry := (getModel factories ref (registry m)).2;
     lastRefreshAt := lastRefreshAt m; currentRefresh := currentRefresh m;
     promises := promises m; callers := callers m; requests := requests m |}.

Inductive Event :=
| CallRefresh (force : bool) (now : Z)
| FetchesSettle (r : nat) (outcomes : string → FetchOutcome) (now : Z)
| Resume (c : nat)
| CallGetModel (ref : option ChatModel).

Definition step (e : Event) (m : Machine) : option Machine :=
  match e with
  | CallRefresh force now => Some (refreshModels force now m)
  | FetchesSettle r outcomes now => settle r outcomes now m
  | Resume c => resume c m
  | CallGetModel ref => Some (resolve ref m)
  end.

Fixpoint run (es : list Event) (m : Machine) : option Machine :=
  match es with
  | [] => Some m
  | e :: es' => step e m ≫= run es'
  end.

(** [let lastRefreshAt = 0; let currentRefresh = null] over the registry
    the module evaluation leaves. *)
Definition boot (cfg : CompatibleConfig) : Machine :=
  {| registry := moduleInit factories cfg; lastRefreshAt := 0;
     currentRefresh := None; promises := []; callers := []; requests := [] |}.

Definition reachable (m : Machine) : Prop :=
  ∃ cfg es, run es (boot cfg) = Some m.

End Refresh.

(** ** Reading a key back into provider and model name *)

Definition afterSeparator (k : string) : string :=
  match k with
  | String _ (String _ rest) => rest
  | _ => EmptyString
  end.

(** Every way of writing [k] as [modelKey p n]. *)
Fixpoint splits (k : string) : list (string * string) :=
  (if String.prefix "::" k then [(EmptyString, afterSeparator k)] else [])
  ++ match k with
     | EmptyString => []
     | String c k' => map (λ pn, (String c pn.1, pn.2)) (splits k')
     end.

(** The models a provider's fetch settles with: nothing when no request
    was made or the loader threw, the listing otherwise. *)
Definition settledModels (outcomes : string → FetchOutcome) (s : string * Slot)
    : list ModelRegistration :=
  match s.2 with
  | NoRequest => []
  | Requested =>
    match outcomes s.1 with
    | Listing models => models
    | _ => []
    end
  end.



(** ** Well-formed coordinator states *)

(** What holds of the coordinator between any two steps: a pending round
    is the one [currentRefresh] names; the call suspended at
    [await currentRefresh] is unique and started that round; no promise
    has been rejected and no call has thrown. *)
Record Coordinated (m : Machine) : Prop := {
  pending_is_current :
    ∀ r slots, promises m !! r = Some (Pending slots) → currentRefresh m = Some r;
  starter_is_current :
    ∀ c r, callers m !! c = Some (AwaitingOwn r) → currentRefresh m = Some r;
  starter_unique :
    ∀ c c' r r', callers m !! c = Some (AwaitingOwn r) →
                 callers m !! c' = Some (AwaitingOwn r') → c = c';
  current_has_starter :
    ∀ r, currentRefresh m = Some r →
         (∃ c, callers m !! c = Some (AwaitingOwn r)) ∧ is_Some (promises m !! r);
  never_rejected : ∀ r, promises m !! r ≠ Some Rejected;
  never_failed : ∀ c, callers m !! c ≠ Some Failed;
}.

(** ** Catalog invariants *)

(** Every bucket of the catalog holds at least one model. *)
Definition bucketsNonEmpty (reg : Registry) : Prop :=
  ∀ p bucket, allModels reg !! p = Some bucket → bucket ≠ ∅.

(** Every catalogued key has a metadata record. *)
Definition metadataCovers (reg : Registry) : Prop :=
  ∀ p n h, lookupModel reg p n = Some h → is_Some (modelMetadata reg !! modelKey p n).

(** ** Concrete configurations and traces *)

Definition noCompatible : CompatibleConfig :=
  {| openaiCompatibleProviders := [];
     openaiCompatibleModels := [];
     openaiCompatibleUnsupportedModels := ∅ |}.

(** Only OpenAI has a key; Ollama needs none. *)
Definition demoEnv : gmap string string :=
  list_to_map [("OPENAI_API_KEY", "sk-live")].

Definition t0 : Z := 1700000000000.

(** OpenAI lists one model; every other request fails on the network. *)
Definition openaiListsOne (p : string) : FetchOutcome :=
  if String.eqb p "openai" then Listing [seed "gpt-4.1"] else NetworkFailure.

(** Every request fails. *)
Definition allFail (p : string) : FetchOutcome := NetworkFailure.

(** A first refresh runs to its end, then a forced one starts. *)
Definition forcedAfterFirst : list Event :=
  [ CallRefresh false t0;
    FetchesSettle 0 openaiListsOne (t0 + 10);
    Resume 0;
    CallRefresh true (t0 + 20) ].

Definition duringSecondRound : Machine :=
  default (boot providerFactories noCompatible)
          (run providerFactories demoEnv forcedAfterFirst
               (boot providerFactories noCompatible)).

(** C1 as the specification words it: whatever [force] is, a call made
    while a round is pending is tied to that round's promise. *)
Definition joins_for_any_force : Prop :=
  ∀ env m force now r slots,
    reachable providerFactories env m →
    currentRefresh m = Some r →
    promises m !! r = Some (Pending slots) →
    callers (refreshModels env force now m) = (callers m ++ [AwaitingShared r])%list.

(** A compatible provider whose identifier contains the key separator. *)
Definition azureHandle : LanguageModel :=
  {| lm_id := 1000; lm_provider := "openai::azure"; lm_modelId := "gpt-4o" |}.

Definition azureCompatible : CompatibleConfig :=
  {| openaiCompatibleProviders := [("openai::azure", Some "azure-key")];
     openaiCompatibleModels := [("openai::azure", [("gpt-4o", azureHandle)])];
     openaiCompatibleUnsupportedModels := ∅ |}.

(** One refresh in which OpenAI lists a model. *)
Definition firstRefresh : list Event :=
  [ CallRefresh false t0; FetchesSettle 0 openaiListsOne (t0 + 10) ].

Definition afterFirstRefresh : Machine :=
  default (boot providerFactories azureCompatible)
          (run providerFactories demoEnv firstRefresh
               (boot providerFactories azureCompatible)).

(** The slots of a round started under [demoEnv]. *)
Definition demoSlots : list (string * Slot) :=
  [ ("openai", Requested); ("google", NoRequest); ("anthropic", NoRequest);
    ("xai", NoRequest); ("groq", NoRequest); ("openRouter", NoRequest);
    ("ollama", Requested) ].

Definition noOptions : RegisterOptions :=
  {| opt_displayName := None; opt_apiName := None;
     opt_isToolCallUnsupported := None; opt_isImageInputUnsupported := None;
     opt_model := None |}.

Definition firstHandle : LanguageModel :=
  {| lm_id := 7; lm_provider := "acme"; lm_modelId := "m1" |}.


(** A first registration with a display name and explicit flags. *)
Definition firstOptions : RegisterOptions :=
  {| opt_displayName := Some "Model One";
     opt_apiName := None;
     opt_isToolCallUnsupported := Some true;
     opt_isImageInputUnsupported := Some false;
     opt_model := Some firstHandle |}.

Definition seededRegistry : Registry := moduleInit providerFactories noCompatible.

(** ** Loader bodies *)

(** What a loader's [fetch] and [response.json()] give it: the fetch
    rejects, the response is not [ok], the body is not JSON, or the body
    is read. *)
Inductive Response (P : Type) : Type :=
| FetchRejected
| NotOk
| BadBody
| Body (payload : P).
Arguments FetchRejected {P}.
Arguments NotOk {P}.
Arguments BadBody {P}.
Arguments Body {P} payload.

(** The part of a loader that every loader shares: [fetch], the
    [response.ok] test and [response.json()]. *)
Definition withBody {P} (failure : string) (r : Response P)
    (k : P → result (list ModelRegistration)) : result (list ModelRegistration) :=
  match r with
  | FetchRejected => Throw "fetch failed"
  | NotOk => Throw failure
  | BadBody => Throw "Unexpected token in JSON"
  | Body payload => k payload
  end.






(** [{ id: string; <label>?: string }], the label being [display_name]
    for Anthropic, [name] for xAI and OpenRouter, [owned_by] for Groq. *)
Record ListedModel := { item_id : string; item_label : option string }.

(** [{ name?: string; model?: string }] *)
Record OllamaModel := { o_name : option string; o_model : option string }.

Section Loaders.

(** [String.prototype.trim], a function of the host. *)
Variable trim : string → string.



End Loaders.

(** [{ name: model.id, displayName: <label> || model.id,
       isImageInputUnsupported: false }] *)
Definition labelledEntry (m : ListedModel) : ModelRegistration :=
  {| name := item_id m;
     displayName := Some (orString (item_label m) (item_id m));
     apiName := None;
     isToolCallUnsupported := None;
     isImageInputUnsupported := Some false |}.

Definition fetchAnthropicModels_body (r : Response (option (list ListedModel)))
    : result (list ModelRegistration) :=
  withBody "Failed to load Anthropic models" r
    (λ data, Ok (map labelledEntry (default [] data))).

Definition fetchXaiModels_body (r : Response (option (list ListedModel)))
    : result (list ModelRegistration) :=
  withBody "Failed to load xAI models" r
    (λ data, Ok (map labelledEntry (default [] data))).

Definition fetchOpenRouterModels_body (r : Response (option (list ListedModel)))
    : result (list ModelRegistration) :=
  withBody "Failed to load OpenRouter models" r
    (λ data, Ok (map labelledEntry (default [] data))).

(** Groq shows the id itself: [displayName: model.id]. *)
Definition groqEntry (m : ListedModel) : ModelRegistration :=
  {| name := item_id m;
     displayName := Some (item_id m);
     apiName := None;
     isToolCallUnsupported := None;
     isImageInputUnsupported := Some false |}.

Definition fetchGroqModels_body (r : Response (option (list ListedModel)))
    : result (list ModelRegistration) :=
  withBody "Failed to load Groq models" r
    (λ data, Ok (map groqEntry (default [] data))).

(** [model.name || model.model] *)
Definition ollamaId (m : OllamaModel) : string :=
  orString (o_name m) (orString (o_model m) EmptyString).

Definition ollamaEntry (m : OllamaModel) : option ModelRegistration :=
  let id := ollamaId m in
  if String.eqb id EmptyString then None
  else Some {| name := id; displayName := Some id; apiName := None;
               isToolCallUnsupported := None; isImageInputUnsupported := None |}.

Definition fetchOllamaModels_body (r : Response (option (list OllamaModel)))
    : result (list ModelRegistration) :=
  withBody "Failed to load Ollama models" r
    (λ data, Ok (omap ollamaEntry (default [] data))).


(** ** The models route *)

(** The comparator of [GET] in [app/api/chat/models/route.ts]. *)
Definition keyFirst (a b : ProviderInfo) : Z :=
  if pi_hasAPIKey a && negb (pi_hasAPIKey b) then (-1)%Z
  else if negb (pi_hasAPIKey a) && pi_hasAPIKey b then 1%Z
  else 0%Z.

(** The body of the response: [customModelProvider.modelsInfo.sort(...)]. *)
Definition modelsResponse (env : gmap string string)
    (localeCompare localeCompareBase : string → string → Z) (reg : Registry)
    : list ProviderInfo :=
  sortWith keyFirst (buildModelsInfo env localeCompare localeCompareBase reg).

(** ** Events inside the throttle window *)

(** An event that is neither a forced call, nor a call made
    [1000 * 60 * 5] ms or more after [since], nor the end of a round. *)
Definition quietEvent (since : Z) (e : Event) : Prop :=
  match e with
  | CallRefresh force now => force = false ∧ (now - since < 1000 * 60 * 5)%Z
  | FetchesSettle _ _ _ => False
  | Resume _ => True
  | CallGetModel _ => True
  end.

(** ** Definitions for the further properties *)

(** The providers of the fetch table, in its order. *)
Definition fetchProviders : list string :=
  ["openai"; "google"; "anthropic"; "xai"; "groq"; "openRouter"; "ollama"].


(** No request is logged twice, and every logged request names a started
    round and a provider of the fetch table. *)
Definition requestsTidy (m : Machine) : Prop :=
  NoDup (requests m)
  ∧ ∀ r p, (r, p) ∈ requests m →
           (r < length (promises m))%nat ∧ p ∈ fetchProviders.

(** A few calls inside the throttle window of [duringSecondRound]. *)
Definition quietCalls : list Event :=
  [ CallRefresh false (t0 + 30);
    CallGetModel (Some {| provider := "xai"; model := "grok-9" |});
    CallRefresh false (t0 + 299999) ].

Definition afterQuietCalls : Machine :=
  default duringSecondRound
          (run providerFactories demoEnv quietCalls duringSecondRound).

(** A comparator that is total and transitive: shorter strings first. *)
Definition byLength (a b : string) : Z :=
  (Z.of_nat (String.length a) - Z.of_nat (String.length b))%Z.

(** A registry with one model, and its summary. *)
Definition acmeRegistry : Registry :=
  registerModel providerFactories "acme" "m1" firstOptions emptyRegistry.

Definition acmeModelInfo : ModelInfo :=
  {| mi_name := "m1"; mi_displayName := Some "Model One";
     mi_isToolCallUnsupported := true; mi_isImageInputUnsupported := false |}.

Definition acmeInfo : ProviderInfo :=
  {| pi_provider := "acme"; pi_hasAPIKey := true; pi_models := [acmeModelInfo] |}.

(** * Properties *)

(** ** Facts about strings *)

Lemma prefix_nil (s : string) : String.prefix EmptyString s = true.
Proof. by destruct s. Qed.

Lemma prefix_cons (a b : ascii) (p s : string) :
  String.prefix (String a p) (String b s)
  = if ascii_dec a b then String.prefix p s else false.
Proof. reflexivity. Qed.

Lemma app_cons (a : ascii) (s t : string) : String a s ++ t = String a (s ++ t).
Proof. reflexivity. Qed.

Lemma app_nil_l (t : string) : EmptyString ++ t = t.
Proof. reflexivity. Qed.

Lemma prefix_app_refl (p t : string) : String.prefix p (p ++ t) = true.
Proof.
  induction p as [|ch p IH]; [apply prefix_nil|].
  rewrite app_cons, prefix_cons.
  destruct (ascii_dec ch ch); [apply IH | congruence].
Qed.

Lemma colonFree_prefix_sep (p q n : string) :
  colonFree p = true → colonFree q = true →
  String.prefix (p ++ "::") (q ++ "::" ++ n) = true → p = q.
Proof.
  revert q. induction p as [|c p IH]; intros [|d q] Hp Hq.
  - done.
  - rewrite app_nil_l, app_cons, prefix_cons.
    destruct (ascii_dec ":" d) as [<-|]; [|done]. by simpl in Hq.
  - rewrite app_nil_l, app_cons. change ("::" ++ n) with (String ":" (":" ++ n)).
    rewrite prefix_cons.
    destruct (ascii_dec c ":") as [->|]; [|done]. by simpl in Hp.
  - rewrite !app_cons, prefix_cons.
    destruct (ascii_dec c d) as [->|]; [|done].
    simpl in Hp, Hq.
    apply andb_true_iff in Hp as [_ Hp]. apply andb_true_iff in Hq as [_ Hq].
    intros H. f_equal. by apply IH.
Qed.

(** ** Facts about the catalog operations *)

Lemma lookup_foldl_delete {V} (ks : list string) (m : gmap string V) (k : string) :
  foldl (λ m key, delete key m) m ks !! k
  = if bool_decide (k ∈ ks) then None else m !! k.
Proof.
  revert m. induction ks as [|k' ks IH]; intros m; simpl; [done|].
  rewrite IH. destruct (decide (k = k')) as [->|Hne].
  - rewrite lookup_delete_eq. rewrite (bool_decide_eq_true_2 (k' ∈ k' :: ks)); [|left].
    by case_bool_decide.
  - rewrite lookup_delete_ne by done.
    case_bool_decide as H1; case_bool_decide as H2; try done.
    + exfalso. apply H2. by right.
    + exfalso. apply elem_of_cons in H2 as [?|?]; done.
Qed.

Section CatalogFacts.

Variable factories : gmap string ProviderFactory.

Lemma clearProvider_allModels p reg :
  allModels (clearProvider p reg) = delete p (allModels reg).
Proof. done. Qed.

Lemma clearProvider_metadata p reg k :
  modelMetadata (clearProvider p reg) !! k
  = if startsWith k (p ++ "::") then None else modelMetadata reg !! k.
Proof.
  unfold clearProvider; simpl. rewrite lookup_foldl_delete.
  case_bool_decide as Hin.
  - apply list_elem_of_filter in Hin as [-> _]. done.
  - destruct (startsWith k (p ++ "::")) eqn:Hs; [|done].
    destruct (modelMetadata reg !! k) as [v|] eqn:Hk; [|done].
    exfalso. apply Hin. apply list_elem_of_filter. split; [done|].
    apply list_elem_of_fmap. exists (k, v). split; [done|].
    by apply elem_of_map_to_list.
Qed.

Lemma startsWith_modelKey p n : startsWith (modelKey p n) (p ++ "::") = true.
Proof.
  unfold startsWith, modelKey.
  replace (p ++ "::" ++ n) with ((p ++ "::") ++ n).
  - apply prefix_app_refl.
  - induction p as [|c p IH]; [done|]. rewrite !app_cons. by rewrite IH.
Qed.

Lemma registerModel_skip p n o reg :
  resolveInstance factories p n o reg = None →
  registerModel factories p n o reg = reg.
Proof. unfold registerModel. by intros ->. Qed.

Lemma registerModel_allModels p n o reg inst :
  resolveInstance factories p n o reg = Some inst →
  allModels (registerModel factories p n o reg)
  = <[p := <[n := inst]> (default ∅ (allModels reg !! p))]> (allModels reg).
Proof. unfold registerModel. by intros ->. Qed.

Lemma registerModel_metadata p n o reg inst :
  resolveInstance factories p n o reg = Some inst →
  modelMetadata (registerModel factories p n o reg)
  = <[modelKey p n := metadataOf p n o]> (modelMetadata reg).
Proof. unfold registerModel. by intros ->. Qed.

Lemma registerModel_lookup p n o reg inst :
  resolveInstance factories p n o reg = Some inst →
  lookupModel (registerModel factories p n o reg) p n = Some inst.
Proof.
  intros H. unfold lookupModel. rewrite (registerModel_allModels _ _ _ _ _ H).
  rewrite lookup_insert_eq. simpl. by rewrite lookup_insert_eq.
Qed.

Lemma registerModel_lookup_other p n o reg p' n' :
  (p', n') ≠ (p, n) →
  lookupModel (registerModel factories p n o reg) p' n' = lookupModel reg p' n'.
Proof.
  intros Hne. destruct (resolveInstance factories p n o reg) as [inst|] eqn:H.
  2: by rewrite registerModel_skip.
  unfold lookupModel. rewrite (registerModel_allModels _ _ _ _ _ H).
  destruct (decide (p' = p)) as [->|Hp].
  - rewrite lookup_insert_eq. simpl. rewrite lookup_insert_ne by congruence.
    by destruct (allModels reg !! p).
  - by rewrite lookup_insert_ne.
Qed.

End CatalogFacts.

(** ** Default capability flags *)

Lemma splits_complete (p n : string) : (p, n) ∈ splits (modelKey p n).
Proof.
  induction p as [|c p IH].
  - change (modelKey EmptyString n) with (String ":" (String ":" n)).
    cbn [splits]. rewrite !prefix_cons.
    destruct (ascii_dec ":" ":"); [|congruence].
    rewrite prefix_nil. left.
  - unfold modelKey in *. rewrite app_cons.
    cbn [splits]. apply elem_of_app. right.
    apply list_elem_of_fmap. by exists (p, n).
Qed.

Lemma modelKey_in_keys (p n : string) (ks : list string) :
  modelKey p n ∈ ks → (p, n) ∈ ks ≫= splits.
Proof.
  intros H. apply list_elem_of_bind. exists (modelKey p n).
  split; [apply splits_complete | done].
Qed.

Lemma denyList_pairs (p n : string) :
  modelKey p n ∈ fallbackToolUnsupportedKeys ↔ (p, n) ∈ toolUnsupportedPairs.
Proof.
  unfold fallbackToolUnsupportedKeys. rewrite elem_of_list_to_set. split.
  - intros H. apply modelKey_in_keys in H. exact H.
  - intros H. apply list_elem_of_fmap_2 with (f := λ pn, modelKey pn.1 pn.2) in H.
    exact H.
Qed.

Section RegisterFacts.

Variable factories : gmap string ProviderFactory.

(** C7. When [registerModel] stores a model and a capability flag was not
    supplied, the stored [isToolCallUnsupported] is true exactly when the
    (provider, model) pair is on the deny-list, and the stored
    [isImageInputUnsupported] is true exactly when the provider is not one
    of google, xai, openai, anthropic. *)
Theorem registerModel_default_flags (p n : string) (o : RegisterOptions)
    (reg : Registry) (inst : LanguageModel) :
  resolveInstance factories p n o reg = Some inst →
  ∃ meta,
    modelMetadata (registerModel factories p n o reg) !! modelKey p n = Some meta
    ∧ (opt_isToolCallUnsupported o = None →
       (meta_isToolCallUnsupported meta = true ↔ (p, n) ∈ toolUnsupportedPairs))
    ∧ (opt_isImageInputUnsupported o = None →
       (meta_isImageInputUnsupported meta = true
        ↔ p ∉ ["google"; "xai"; "openai"; "anthropic"])).
Proof.
  intros Hres. exists (metadataOf p n o).
  rewrite (registerModel_metadata _ _ _ _ _ _ Hres), lookup_insert_eq.
  split; [done|]. unfold metadataOf; simpl. split; intros ->; simpl.
  - rewrite bool_decide_eq_true. apply denyList_pairs.
  - rewrite negb_true_iff, bool_decide_eq_false.
    unfold imageInputSupportedProviders. by rewrite elem_of_list_to_set.
Qed.



End RegisterFacts.

Section ResolverFacts.

Variable factories : gmap string ProviderFactory.


Lemma fallbackModel_catalogued reg h :
  lookupModel reg fallbackProvider fallbackModelName = Some h →
  fallbackModel factories reg = (Ok h, reg).
Proof. unfold fallbackModel. by intros ->. Qed.




End ResolverFacts.

(** ** The registration phase of a refresh round *)

Lemma modelKey_inj (p n n' : string) : modelKey p n = modelKey p n' → n = n'.
Proof.
  unfold modelKey. induction p as [|c p IH].
  - intros H. cbv in H. by injection H.
  - rewrite !app_cons. intros [= H]. by apply IH.
Qed.

Lemma modelKey_other_provider (p q n n' : string) :
  colonFree p = true → colonFree q = true → p ≠ q →
  modelKey p n ≠ modelKey q n'.
Proof.
  intros Hp Hq Hne Heq. apply Hne. symmetry.
  apply (colonFree_prefix_sep q p n Hq Hp).
  change (p ++ "::" ++ n) with (modelKey p n). rewrite Heq.
  apply startsWith_modelKey.
Qed.

Lemma startsWith_other_provider (p q n : string) :
  colonFree p = true → colonFree q = true → p ≠ q →
  startsWith (modelKey p n) (q ++ "::") = false.
Proof.
  intros Hp Hq Hne. apply not_true_is_false. intros H.
  apply Hne. symmetry. exact (colonFree_prefix_sep q p n Hq Hp H).
Qed.

Section RoundFacts.

Variable factories : gmap string ProviderFactory.


Lemma registerEntry_nextObjectId p reg e :
  (nextObjectId reg ≤ nextObjectId (registerEntry factories p reg e))%nat.
Proof.
  unfold registerEntry, registerModel.
  destruct (resolveInstance _ _ _ _ _); simpl; [|lia].
  destruct (allocates _ _ _); lia.
Qed.

Lemma registerEntries_nextObjectId p ms reg :
  (nextObjectId reg ≤ nextObjectId (foldl (registerEntry factories p) reg ms))%nat.
Proof.
  revert reg. induction ms as [|e ms IH]; intros reg; simpl; [lia|].
  etrans; [apply (registerEntry_nextObjectId p reg e)|apply IH].
Qed.








Lemma clearProvider_lookup p reg n : lookupModel (clearProvider p reg) p n = None.
Proof. unfold lookupModel. by rewrite clearProvider_allModels, lookup_delete_eq. Qed.

Lemma applyResult_nextObjectId reg r :
  (nextObjectId reg ≤ nextObjectId (applyResult factories reg r))%nat.
Proof.
  unfold applyResult. destruct r.2; [lia|].
  apply (registerEntries_nextObjectId r.1 (_ :: _) (clearProvider r.1 reg)).
Qed.

Lemma applyResults_nextObjectId rs reg :
  (nextObjectId reg ≤ nextObjectId (applyResults factories rs reg))%nat.
Proof.
  unfold applyResults. revert reg.
  induction rs as [|r rs IH]; intros reg; simpl; [lia|].
  etrans; [apply (applyResult_nextObjectId reg r)|apply IH].
Qed.





End RoundFacts.

(** ** The fetch phase of a refresh round *)


Section FetchFacts.

Variable factories : gmap string ProviderFactory.
Variable env : gmap string string.

Lemma mapperStart_provider reg f : (mapperStart env reg f).1 = f.1.
Proof.
  unfold mapperStart. destruct (negb _); [done|]. by destruct f.2.
Qed.

Lemma mapperStart_requested reg f :
  (mapperStart env reg f).2 = Requested → checkProviderAPIKey env reg f.1 = true.
Proof.
  unfold mapperStart. destruct (checkProviderAPIKey env reg f.1); [done|].
  simpl. discriminate.
Qed.

Lemma slots_providers reg :
  (map (mapperStart env reg) (fetchers env)).*1
  = ["openai"; "google"; "anthropic"; "xai"; "groq"; "openRouter"; "ollama"].
Proof.
  unfold fetchers. cbn [map fmap list_fmap].
  by rewrite !mapperStart_provider.
Qed.

Lemma mapperResult_settled outcomes s :
  mapperResult outcomes s = Ok (s.1, settledModels outcomes s).
Proof.
  unfold mapperResult, settledModels.
  destruct s.2; [done|]. by destruct (outcomes s.1).
Qed.

Lemma promiseAll_settled outcomes slots :
  promiseAll (map (mapperResult outcomes) slots)
  = Ok (map (λ s, (s.1, settledModels outcomes s)) slots).
Proof.
  induction slots as [|s slots IH]; simpl; [done|].
  by rewrite mapperResult_settled, IH.
Qed.

Lemma roundBody_settled slots outcomes reg :
  roundBody factories slots outcomes reg
  = Ok (applyResults factories (map (λ s, (s.1, settledModels outcomes s)) slots) reg).
Proof. unfold roundBody. by rewrite promiseAll_settled. Qed.

Lemma settle_pending outcomes m r slots now :
  promises m !! r = Some (Pending slots) →
  ∃ m', settle factories r outcomes now m = Some m'
        ∧ promises m' !! r = Some Fulfilled.
Proof.
  intros Hp. unfold settle. rewrite Hp, roundBody_settled.
  eexists. split; [done|]. simpl. apply list_lookup_insert_eq.
  by apply lookup_lt_Some in Hp.
Qed.

(** C4. For a provider of the fetch table: when its credential check
    fails, its slot makes no request, no request of any round start names
    it, and it contributes no models; when its loader throws, the error is
    caught and it contributes no models; and whatever the fetches do, the
    round body ends normally and the round's promise is fulfilled. *)
Theorem provider_failure_is_contained (reg : Registry) (f : string * LoaderStart)
    (outcomes : string → FetchOutcome) :
  f ∈ fetchers env →
  (checkProviderAPIKey env reg f.1 = false →
     mapperStart env reg f = (f.1, NoRequest)
     ∧ (∀ r, (r, f.1) ∉ issued r (map (mapperStart env reg) (fetchers env)))
     ∧ mapperResult outcomes (mapperStart env reg f) = Ok (f.1, []))
  ∧ (∀ msg, loaderSettles (outcomes f.1) = Throw msg →
     mapperResult outcomes (mapperStart env reg f) = Ok (f.1, []))
  ∧ (∀ slots reg1, ∃ reg', roundBody factories slots outcomes reg1 = Ok reg')
  ∧ (∀ m r slots now, promises m !! r = Some (Pending slots) →
     ∃ m', settle factories r outcomes now m = Some m'
           ∧ promises m' !! r = Some Fulfilled).
Proof.
  intros Hf. split; [|split; [|split]].
  - intros Hcheck.
    assert (Hs : mapperStart env reg f = (f.1, NoRequest)).
    { unfold mapperStart. by rewrite Hcheck. }
    split; [done|]. split.
    + intros r Hin. unfold issued in Hin. apply list_elem_of_omap in Hin as (s & Hs1 & Hs2).
      apply list_elem_of_fmap in Hs1 as (f' & -> & Hf').
      destruct (mapperStart env reg f').2 eqn:Hslot; [done|].
      injection Hs2 as Hp. rewrite mapperStart_provider in Hp.
      apply mapperStart_requested in Hslot. congruence.
    + by rewrite Hs.
  - intros msg Hthrow. rewrite mapperResult_settled, mapperStart_provider.
    unfold settledModels. rewrite mapperStart_provider.
    destruct (mapperStart env reg f).2; [done|].
    by destruct (outcomes f.1).
  - intros slots reg1. eexists. apply roundBody_settled.
  - apply settle_pending.
Qed.

End FetchFacts.



(** ** The refresh coordinator *)

Section CoordinatorFacts.

Variable factories : gmap string ProviderFactory.
Variable env : gmap string string.


Lemma lookup_snoc {A} (l : list A) (x y : A) (i : nat) :
  (l ++ [x])%list !! i = Some y ↔ l !! i = Some y ∨ (i = length l ∧ x = y).
Proof.
  rewrite lookup_snoc_Some. split.
  - intros [[_ ?]|?]; auto.
  - intros [H|?]; [left|by right]. split; [by apply lookup_lt_Some in H|done].
Qed.

Lemma lookup_insert_Some_list {A} (l : list A) (i j : nat) (x y : A) :
  <[i := x]> l !! j = Some y → (i = j ∧ x = y) ∨ (i ≠ j ∧ l !! j = Some y).
Proof.
  intros H. destruct (decide (i = j)) as [->|Hne].
  - left. split; [done|].
    destruct (decide (j < length l)%nat) as [Hlt|Hge].
    + rewrite list_lookup_insert_eq in H by done. congruence.
    + rewrite list_insert_ge in H by lia. apply lookup_lt_Some in H. lia.
  - right. by rewrite list_lookup_insert_ne in H.
Qed.

Lemma boot_coordinated cfg : Coordinated (boot factories cfg).
Proof. split; simpl; intros *; try rewrite lookup_nil; done. Qed.

Lemma addCaller_coordinated st m :
  Coordinated m → (∀ r, st ≠ AwaitingOwn r) → st ≠ Failed →
  Coordinated (addCaller st m).
Proof.
  intros [I1 I2 I3 I4 I5 I6] Hown Hfail. split; simpl.
  - exact I1.
  - intros c r [H|[_ ->]]%lookup_snoc; [eauto|]. by destruct (Hown r).
  - intros c c' r r' [H|[_ ->]]%lookup_snoc; [|by destruct (Hown r)].
    intros [H'|[_ ->]]%lookup_snoc; [eauto|]. by destruct (Hown r').
  - intros r Hr. destruct (I4 r Hr) as [[c Hc] Hp]. split; [|done].
    exists c. apply lookup_snoc. by left.
  - exact I5.
  - intros c [H|[_ ->]]%lookup_snoc; [by eapply I6|done].
Qed.

Lemma refreshModels_coordinated force now m :
  Coordinated m → Coordinated (refreshModels env force now m).
Proof.
  intros Hm. unfold refreshModels.
  destruct (negb force && (now - lastRefreshAt m <? 1000 * 60 * 5)%Z).
  { by apply addCaller_coordinated. }
  destruct (currentRefresh m) as [r0|] eqn:Hcur.
  { by apply addCaller_coordinated. }
  destruct Hm as [I1 I2 I3 I4 I5 I6]. split; simpl.
  - intros r slots [H|[-> _]]%lookup_snoc; [|done].
    apply I1 in H. congruence.
  - intros c r [H|[_ [= ->]]]%lookup_snoc; [|done].
    apply I2 in H. congruence.
  - intros c c' r r' [H|[-> _]]%lookup_snoc.
    + apply I2 in H. congruence.
    + intros [H'|[-> _]]%lookup_snoc; [|done]. apply I2 in H'. congruence.
  - intros r [= <-]. split.
    + exists (length (callers m)). apply lookup_snoc. by right.
    + eexists. apply lookup_snoc. by right.
  - intros r [H|[_ [=]]]%lookup_snoc. by eapply I5.
  - intros c [H|[_ [=]]]%lookup_snoc. by eapply I6.
Qed.

Lemma settle_coordinated r outcomes now m m' :
  Coordinated m → settle factories r outcomes now m = Some m' → Coordinated m'.
Proof.
  intros [I1 I2 I3 I4 I5 I6]. unfold settle.
  destruct (promises m !! r) as [[slots| |]|] eqn:Hp; try done.
  rewrite roundBody_settled. intros [= <-]. split; simpl.
  - intros r' slots' [[_ [=]]|[_ H]]%lookup_insert_Some_list. eauto.
  - exact I2.
  - exact I3.
  - intros r' Hr'. destruct (I4 r' Hr') as [Hc [p Hp']]. split; [done|].
    destruct (decide (r = r')) as [->|Hne].
    + exists Fulfilled. apply list_lookup_insert_eq. by apply lookup_lt_Some in Hp'.
    + exists p. by rewrite list_lookup_insert_ne.
  - intros r' [[_ [=]]|[_ H]]%lookup_insert_Some_list. by eapply I5.
  - exact I6.
Qed.

Lemma resume_coordinated c m m' :
  Coordinated m → resume c m = Some m' → Coordinated m'.
Proof.
  intros [I1 I2 I3 I4 I5 I6]. unfold resume.
  destruct (callers m !! c) as [[| |r|r]|] eqn:Hc; try done.
  - (* the starter *)
    destruct (promises m !! r) as [[slots| |]|] eqn:Hp; try done.
    2: { by apply I5 in Hp. }
    intros [= <-]. split; simpl.
    + intros r' slots' H. pose proof (I1 _ _ H) as H1. pose proof (I2 _ _ Hc) as H2.
      congruence.
    + intros c' r' [[_ [=]]|[Hne H]]%lookup_insert_Some_list.
      exfalso. apply Hne. eauto.
    + intros c1 c2 r1 r2 [[_ [=]]|[Hne H]]%lookup_insert_Some_list.
      exfalso. apply Hne. eauto.
    + done.
    + exact I5.
    + intros c' [[_ [=]]|[_ H]]%lookup_insert_Some_list. by eapply I6.
  - (* a call that returned the shared promise *)
    destruct (promises m !! r) as [[slots| |]|] eqn:Hp; try done.
    2: { by apply I5 in Hp. }
    intros [= <-]. split; simpl.
    + exact I1.
    + intros c' r' [[_ [=]]|[_ H]]%lookup_insert_Some_list. eauto.
    + intros c1 c2 r1 r2 [[_ [=]]|[_ H1]]%lookup_insert_Some_list
        [[_ [=]]|[_ H2]]%lookup_insert_Some_list. eauto.
    + intros r' Hr'. destruct (I4 r' Hr') as [[c' Hc'] Hp']. split; [|done].
      exists c'. rewrite list_lookup_insert_ne; [done|]. intros ->. congruence.
    + exact I5.
    + intros c' [[_ [=]]|[_ H]]%lookup_insert_Some_list. by eapply I6.
Qed.

Lemma step_coordinated e m m' :
  Coordinated m → step factories env e m = Some m' → Coordinated m'.
Proof.
  intros Hm. destruct e as [force now|r outcomes now|c|ref]; simpl.
  - intros [= <-]. by apply refreshModels_coordinated.
  - by apply settle_coordinated.
  - by apply resume_coordinated.
  - intros [= <-]. destruct Hm. by split.
Qed.

Lemma run_coordinated es m m' :
  Coordinated m → run factories env es m = Some m' → Coordinated m'.
Proof.
  revert m. induction es as [|e es IH]; intros m Hm; simpl.
  - by intros [= <-].
  - destruct (step factories env e m) as [m1|] eqn:Hs; [|done]. simpl.
    apply IH. by eapply step_coordinated.
Qed.

Lemma reachable_coordinated m : reachable factories env m → Coordinated m.
Proof. intros (cfg & es & H). eapply run_coordinated; [apply boot_coordinated|done]. Qed.

End CoordinatorFacts.

Section CoordinatorClaims.

Variable factories : gmap string ProviderFactory.
Variable env : gmap string string.

(** C1 (amended). In every reachable state at most one round is pending.
    A call made while [currentRefresh] is set starts no round and issues
    no request, whatever [force] is; unless it is throttled it is tied to
    the promise of the round in flight, and a call tied to a pending round
    cannot resume before that round has ended; a non-forced call inside
    the throttle interval returns at once instead. *)
Theorem single_flight (m : Machine) :
  reachable factories env m →
  (∀ r r' s s', promises m !! r = Some (Pending s) →
                promises m !! r' = Some (Pending s') → r = r')
  ∧ (∀ force now r, currentRefresh m = Some r →
       let m' := refreshModels env force now m in
       promises m' = promises m ∧ requests m' = requests m
       ∧ currentRefresh m' = Some r ∧ registry m' = registry m)
  ∧ (∀ force now r, currentRefresh m = Some r →
       force = true ∨ (1000 * 60 * 5 ≤ now - lastRefreshAt m)%Z →
       callers (refreshModels env force now m) = (callers m ++ [AwaitingShared r])%list)
  ∧ (∀ c r s, callers m !! c = Some (AwaitingShared r)
              ∨ callers m !! c = Some (AwaitingOwn r) →
       promises m !! r = Some (Pending s) → resume c m = None)
  ∧ (∀ c r, callers m !! c = Some (AwaitingShared r) →
       promises m !! r = Some Fulfilled →
       ∃ m', resume c m = Some m' ∧ callers m' !! c = Some Returned)
  ∧ (∀ now r, currentRefresh m = Some r →
       (now - lastRefreshAt m < 1000 * 60 * 5)%Z →
       callers (refreshModels env false now m) = (callers m ++ [Returned])%list).
Proof.
  intros Hreach. apply reachable_coordinated in Hreach as [I1 I2 I3 I4 I5 I6].
  split; [|split; [|split; [|split; [|split]]]].
  - intros r r' s s' H H'. apply I1 in H, H'. congruence.
  - intros force now r Hcur m'. subst m'. unfold refreshModels.
    destruct (negb force && _); [done|]. by rewrite Hcur.
  - intros force now r Hcur Hgo. unfold refreshModels.
    replace (negb force && (now - lastRefreshAt m <? 1000 * 60 * 5)%Z) with false.
    + by rewrite Hcur.
    + symmetry. destruct Hgo as [->|Hlate]; [done|].
      apply andb_false_iff. right. apply Z.ltb_ge. lia.
  - intros c r s [Hc|Hc] Hp; unfold resume; by rewrite Hc, Hp.
  - intros c r Hc Hp. unfold resume. rewrite Hc, Hp. eexists. split; [done|].
    simpl. apply list_lookup_insert_eq. by apply lookup_lt_Some in Hc.
  - intros now r Hcur Hsoon. unfold refreshModels.
    replace (now - lastRefreshAt m <? 1000 * 60 * 5)%Z with true; [done|].
    symmetry. apply Z.ltb_lt. lia.
Qed.

(** C2. A non-forced call made less than [1000 * 60 * 5] ms after
    [lastRefreshAt] returns at once: registry, timestamp, in-flight marker,
    promises and issued requests are what they were. A forced call made
    while [currentRefresh] is null starts a round: a new pending promise
    over the whole fetch table becomes [currentRefresh], and the requests
    of its slots are issued. *)
Theorem throttle_and_force (m : Machine) (now : Z) :
  ((now - lastRefreshAt m < 1000 * 60 * 5)%Z →
     refreshModels env false now m = addCaller Returned m
     ∧ registry (refreshModels env false now m) = registry m
     ∧ lastRefreshAt (refreshModels env false now m) = lastRefreshAt m
     ∧ currentRefresh (refreshModels env false now m) = currentRefresh m
     ∧ promises (refreshModels env false now m) = promises m
     ∧ requests (refreshModels env false now m) = requests m)
  ∧ (currentRefresh m = None →
     let m' := refreshModels env true now m in
     let r := length (promises m) in
     let slots := map (mapperStart env (registry m)) (fetchers env) in
     currentRefresh m' = Some r
     ∧ promises m' = (promises m ++ [Pending slots])%list
     ∧ requests m' = (requests m ++ issued r slots)%list
     ∧ callers m' = (callers m ++ [AwaitingOwn r])%list
     ∧ slots.*1 = ["openai"; "google"; "anthropic"; "xai"; "groq"; "openRouter"; "ollama"]).
Proof.
  split.
  - intros Hsoon. unfold refreshModels.
    replace (now - lastRefreshAt m <? 1000 * 60 * 5)%Z with true; [done|].
    symmetry. apply Z.ltb_lt. lia.
  - intros Hcur m' r slots. subst m' r slots. unfold refreshModels. simpl.
    rewrite Hcur. simpl. repeat split. apply slots_providers.
Qed.


End CoordinatorClaims.

(** ** Invariants of the catalog *)

Lemma foldl_preserves {A B} (P : A → Prop) (f : A → B → A) (l : list B) (a : A) :
  (∀ a b, P a → P (f a b)) → P a → P (foldl f a l).
Proof.
  intros Hf. revert a. induction l as [|b l IH]; intros a Ha; simpl; [done|].
  apply IH, Hf, Ha.
Qed.

Section InvariantFacts.

Variable factories : gmap string ProviderFactory.
Variable env : gmap string string.



Lemma allocateObject_bucketsNonEmpty reg :
  bucketsNonEmpty reg → bucketsNonEmpty (allocateObject reg).
Proof. done. Qed.







Lemma sortWith_elem_of {A} (cmp : A → A → Z) (l : list A) (x : A) :
  x ∈ sortWith cmp l ↔ x ∈ l.
Proof. unfold sortWith. by rewrite merge_sort_Permutation. Qed.



End InvariantFacts.

(** ** The claims at concrete inputs *)

Lemma duringSecondRound_reachable :
  reachable providerFactories demoEnv duringSecondRound.
Proof. exists noCompatible, forcedAfterFirst. vm_compute. reflexivity. Defined.

Lemma duringSecondRound_pending :
  promises duringSecondRound !! 1 = Some (Pending demoSlots).
Proof. vm_compute. reflexivity. Defined.

(** C1 as worded fails: one minute into a forced round, a non-forced call
    that falls inside the throttle interval returns at once instead of
    being tied to the pending round. *)
Lemma joins_for_any_force_fails : ¬ joins_for_any_force.
Proof.
  intros Hclaim.
  pose proof (Hclaim demoEnv duringSecondRound false (t0 + 30)%Z 1 demoSlots
                duringSecondRound_reachable eq_refl duringSecondRound_pending) as H.
  vm_compute in H. discriminate H.
Qed.

Lemma single_flight_witness :
  callers (refreshModels demoEnv true (t0 + 30) duringSecondRound)
  = (callers duringSecondRound ++ [AwaitingShared 1])%list.
Proof.
  apply (single_flight providerFactories demoEnv duringSecondRound
           duringSecondRound_reachable).
  - vm_compute. reflexivity.
  - by left.
Defined.

Lemma throttle_and_force_witness :
  refreshModels demoEnv false (t0 + 30) duringSecondRound
  = addCaller Returned duringSecondRound.
Proof.
  apply (throttle_and_force demoEnv duringSecondRound (t0 + 30)%Z).
  vm_compute. reflexivity.
Defined.


Lemma provider_failure_is_contained_witness :
  mapperResult allFail
    (mapperStart demoEnv seededRegistry ("google", fetchGoogleModels demoEnv))
  = Ok ("google", []).
Proof.
  apply (provider_failure_is_contained providerFactories demoEnv seededRegistry
           ("google", fetchGoogleModels demoEnv) allFail).
  - right. left.
  - vm_compute. reflexivity.
Defined.



Lemma registerModel_default_flags_witness :
  ∃ meta,
    modelMetadata (registerModel providerFactories "ollama" "gemma3:1b" noOptions
                                 emptyRegistry) !! modelKey "ollama" "gemma3:1b"
    = Some meta
    ∧ meta_isToolCallUnsupported meta = true
    ∧ meta_isImageInputUnsupported meta = true.
Proof.
  destruct (registerModel_default_flags providerFactories "ollama" "gemma3:1b"
              noOptions emptyRegistry (sdk "ollama" "gemma3:1b" 0))
    as (meta & Hmeta & Htool & Himage).
  { vm_compute. reflexivity. }
  exists meta. split; [exact Hmeta|]. split.
  - apply Htool; [reflexivity|]. right. left.
  - apply Himage; [reflexivity|].
    intros Hin. repeat (apply elem_of_cons in Hin as [Hin|Hin]; [discriminate Hin|]).
    by apply elem_of_nil in Hin.
Defined.



(** ** The metadata invariant *)

Section MetadataFacts.

Variable factories : gmap string ProviderFactory.

Lemma registerModel_metadataCovers p n o reg :
  metadataCovers reg → metadataCovers (registerModel factories p n o reg).
Proof.
  intros Hreg. destruct (resolveInstance factories p n o reg) as [inst|] eqn:H.
  2: by rewrite registerModel_skip.
  intros q k h. rewrite (registerModel_metadata _ _ _ _ _ _ H).
  destruct (decide ((q, k) = (p, n))) as [[= -> ->]|Hne].
  - intros _. rewrite lookup_insert_eq. eauto.
  - rewrite registerModel_lookup_other by done. intros Hl.
    apply lookup_insert_is_Some'. right. by eapply Hreg.
Qed.

Lemma getModel_metadataCovers ref reg :
  metadataCovers reg → metadataCovers (getModel factories ref reg).2.
Proof.
  intros Hreg.
  assert (Hfb : metadataCovers (fallbackModel factories reg).2).
  { unfold fallbackModel. destruct (lookupModel _ _ _); [done|].
    destruct (factories !! _); [|done]. simpl.
    by apply registerModel_metadataCovers. }
  destruct ref as [m|]; simpl; [|done].
  destruct (lookupModel _ _ _); [done|]. destruct (factories !! _); [|done].
  simpl. by apply registerModel_metadataCovers.
Qed.

(** [clearProvider] keeps the invariant as long as no provider identifier
    involved contains a colon. *)
Lemma clearProvider_metadataCovers p reg :
  colonFree p = true →
  (∀ q, is_Some (allModels reg !! q) → colonFree q = true) →
  metadataCovers reg → metadataCovers (clearProvider p reg).
Proof.
  intros Hp Hcat Hreg q n h. unfold lookupModel.
  rewrite clearProvider_allModels, clearProvider_metadata.
  destruct (decide (q = p)) as [->|Hne].
  { by rewrite lookup_delete_eq. }
  rewrite lookup_delete_ne by done. intros Hl.
  rewrite startsWith_other_provider; [by eapply Hreg|..|done]; [|done].
  apply Hcat. by destruct (allModels reg !! q).
Qed.

End MetadataFacts.

(** C9. The key is the string [provider::model], and [clearProvider]
    deletes the metadata of every key that starts with [provider::]. With
    a compatible provider named [openai::azure], a refresh in which OpenAI
    lists a model deletes the metadata of [openai::azure]'s model and
    leaves the model in the catalog: a reachable state in which a
    catalogued key has no metadata record. *)
Theorem catalog_key_without_metadata :
  reachable providerFactories demoEnv afterFirstRefresh
  ∧ metadataCovers (moduleInit providerFactories azureCompatible)
  ∧ lookupModel (registry afterFirstRefresh) "openai::azure" "gpt-4o" = Some azureHandle
  ∧ modelMetadata (registry afterFirstRefresh) !! modelKey "openai::azure" "gpt-4o" = None
  ∧ ¬ metadataCovers (registry afterFirstRefresh).
Proof.
  assert (Hl : lookupModel (registry afterFirstRefresh) "openai::azure" "gpt-4o"
               = Some azureHandle) by (vm_compute; reflexivity).
  assert (Hm : modelMetadata (registry afterFirstRefresh)
                 !! modelKey "openai::azure" "gpt-4o" = None) by (vm_compute; reflexivity).
  split; [|split; [|split; [|split]]].
  - exists azureCompatible, firstRefresh. vm_compute. reflexivity.
  - unfold moduleInit, loadCompatible.
    apply foldl_preserves.
    { intros a [p ms] Ha. apply foldl_preserves; [|done].
      intros a' e' Ha'. by apply registerModel_metadataCovers. }
    apply (foldl_preserves metadataCovers); [done|].
    unfold loadStaticSeed. apply foldl_preserves.
    { intros a [p ms] Ha. apply foldl_preserves; [|done].
      intros a' e' Ha'. by apply registerModel_metadataCovers. }
    intros p n h. unfold lookupModel. simpl. by rewrite lookup_empty.
  - exact Hl.
  - exact Hm.
  - intros Hcov. apply Hcov in Hl. rewrite Hm in Hl.
    destruct Hl as [x Hx]. discriminate Hx.
Qed.

(** * Further properties *)

(** ** Loader bodies *)

Lemma eqb_empty (s : string) : String.eqb s EmptyString = true ↔ s = EmptyString.
Proof. apply String.eqb_eq. Qed.










(** X3. The Ollama loader lists a model exactly when [name || model] is
    non-empty; the registrations keep the order of the payload, each has
    that non-empty id as name and as display name, and sets no flag. *)
Theorem fetchOllamaModels_body_entries (data : option (list OllamaModel)) :
  ∃ ms,
    fetchOllamaModels_body (Body data) = Ok ms
    ∧ map name ms
      = filter (λ id, id ≠ EmptyString) (map ollamaId (default [] data))
    ∧ Forall (λ e, name e ≠ EmptyString
                   ∧ displayName e = Some (name e)
                   ∧ isImageInputUnsupported e = None
                   ∧ isToolCallUnsupported e = None
                   ∧ apiName e = None) ms.
Proof.
  eexists. split; [reflexivity|]. split.
  - induction (default [] data) as [|m l IH]; [done|].
    csimpl. rewrite filter_cons. unfold ollamaEntry at 1.
    destruct (String.eqb (ollamaId m) EmptyString) eqn:E.
    + apply String.eqb_eq in E. rewrite decide_False by (by rewrite E; intros ?).
      exact IH.
    + assert (ollamaId m ≠ EmptyString) as Hne
        by (intros H0; rewrite H0 in E; by rewrite String.eqb_refl in E).
      rewrite decide_True by done. cbn [map name]. f_equal. exact IH.
  - apply Forall_forall. intros e He.
    apply list_elem_of_omap in He as (m & _ & Hm). unfold ollamaEntry in Hm.
    destruct (String.eqb (ollamaId m) EmptyString) eqn:E; [done|].
    injection Hm as <-. simpl. split; [|done].
    intros H0. rewrite H0 in E. by rewrite String.eqb_refl in E.
Qed.

Lemma labelledEntry_names (items : list ListedModel) :
  map name (map labelledEntry items) = map item_id items.
Proof. induction items as [|m l IH]; simpl; [done|]. by rewrite IH. Qed.

Lemma groqEntry_names (items : list ListedModel) :
  map name (map groqEntry items) = map item_id items.
Proof. induction items as [|m l IH]; simpl; [done|]. by rewrite IH. Qed.

(** X4. The Anthropic, xAI, OpenRouter and Groq loaders return one
    registration per listed model, in order and without filtering, so a
    repeated or empty id stays in the listing. The name is the id; the
    display name is the label when it is non-empty and the id otherwise
    (always the id for Groq); image input is marked supported. *)
Theorem listed_loaders_keep_every_item (data : option (list ListedModel)) :
  let items := default [] data in
  let labelled ms :=
    map name ms = map item_id items
    ∧ map displayName ms
      = map (λ m, Some (orString (item_label m) (item_id m))) items
    ∧ Forall (λ e, isImageInputUnsupported e = Some false) ms in
  (∃ ms, fetchAnthropicModels_body (Body data) = Ok ms ∧ labelled ms)
  ∧ (∃ ms, fetchXaiModels_body (Body data) = Ok ms ∧ labelled ms)
  ∧ (∃ ms, fetchOpenRouterModels_body (Body data) = Ok ms ∧ labelled ms)
  ∧ (∃ ms, fetchGroqModels_body (Body data) = Ok ms
           ∧ map name ms = map item_id items
           ∧ map displayName ms = map (λ m, Some (item_id m)) items
           ∧ Forall (λ e, isImageInputUnsupported e = Some false) ms).
Proof.
  intros items labelled.
  assert (Hl : labelled (map labelledEntry items)).
  { subst labelled. simpl. split; [apply labelledEntry_names|]. split.
    - by rewrite map_map.
    - apply Forall_forall. intros e He.
      apply list_elem_of_In, in_map_iff in He as (m & <- & _). done. }
  split; [by eexists|]. split; [by eexists|]. split; [by eexists|].
  eexists. split; [reflexivity|]. split; [apply groqEntry_names|]. split.
  - by rewrite map_map.
  - apply Forall_forall. intros e He.
    apply list_elem_of_In, in_map_iff in He as (m & <- & _). done.
Qed.

(** ** What the registry records for a live-listed model *)






(** ** The resolver *)

Section ResolverExtras.

Variable factories : gmap string ProviderFactory.


Lemma fallbackModel_keeps reg p n h :
  lookupModel reg p n = Some h →
  lookupModel (fallbackModel factories reg).2 p n = Some h.
Proof.
  intros H. unfold fallbackModel.
  destruct (lookupModel reg fallbackProvider fallbackModelName) as [h'|] eqn:Hl; [done|].
  destruct (factories !! fallbackProvider); [|done]. simpl.
  rewrite registerModel_lookup_other; [done|]. intros [= -> ->]. congruence.
Qed.



(** X7. [getModel] never takes anything out of the catalog: a handle that
    is catalogued before the call is catalogued under the same key after
    it, and the call builds at most one object. *)
Theorem getModel_keeps_catalog (ref : option ChatModel) (reg : Registry) :
  (∀ p n h, lookupModel reg p n = Some h →
            lookupModel (getModel factories ref reg).2 p n = Some h)
  ∧ (nextObjectId reg ≤ nextObjectId (getModel factories ref reg).2
     ≤ S (nextObjectId reg))%nat.
Proof.
  split.
  - intros p n h H. destruct ref as [m|]; simpl; [|by apply fallbackModel_keeps].
    destruct (lookupModel reg (provider m) (model m)) eqn:Hl; [done|].
    destruct (factories !! provider m); [|by apply fallbackModel_keeps]. simpl.
    rewrite registerModel_lookup_other; [done|]. intros [= -> ->]. congruence.
  - assert (Hfb : (nextObjectId reg ≤ nextObjectId (fallbackModel factories reg).2
                   ≤ S (nextObjectId reg))%nat).
    { unfold fallbackModel. destruct (lookupModel _ _ _); [simpl; lia|].
      destruct (factories !! fallbackProvider); simpl; lia. }
    destruct ref as [m|]; simpl; [|done].
    destruct (lookupModel _ _ _); [simpl; lia|].
    destruct (factories !! provider m); [simpl; lia|done].
Qed.

End ResolverExtras.


(** ** The reverse index, [clearProvider] and keys *)

Section IndexExtras.

Variable factories : gmap string ProviderFactory.



End IndexExtras.



Lemma Registry_eq (r1 r2 : Registry) :
  allModels r1 = allModels r2 →
  modelMetadata r1 = modelMetadata r2 →
  modelInstanceLookup r1 = modelInstanceLookup r2 →
  providerHasExplicitKey r1 = providerHasExplicitKey r2 →
  nextObjectId r1 = nextObjectId r2 →
  r1 = r2.
Proof. destruct r1, r2; simpl; intros; by subst. Qed.

(** X11. [clearProvider p] removes the bucket of [p] and every metadata
    record whose key starts with [p::], and nothing else: other buckets,
    records under other keys, the reverse index and the override map are
    as before. Clearing twice is clearing once. *)
Theorem clearProvider_exact (p : string) (reg : Registry) :
  let reg' := clearProvider p reg in
  (∀ n, lookupModel reg' p n = None)
  ∧ (∀ k, startsWith k (p ++ "::") = true → modelMetadata reg' !! k = None)
  ∧ (∀ k, startsWith k (p ++ "::") ≠ true →
          modelMetadata reg' !! k = modelMetadata reg !! k)
  ∧ (∀ q, q ≠ p → allModels reg' !! q = allModels reg !! q)
  ∧ modelInstanceLookup reg' = modelInstanceLookup reg
  ∧ providerHasExplicitKey reg' = providerHasExplicitKey reg
  ∧ clearProvider p reg' = reg'.
Proof.
  intros reg'. subst reg'. split; [apply clearProvider_lookup|].
  split; [|split; [|split; [|split; [done|split; [done|]]]]].
  - intros k Hk. by rewrite clearProvider_metadata, Hk.
  - intros k Hk. rewrite clearProvider_metadata.
    by destruct (startsWith k (p ++ "::")).
  - intros q Hq. rewrite clearProvider_allModels. by apply lookup_delete_ne.
  - apply Registry_eq; try done.
    + rewrite !clearProvider_allModels. apply delete_delete_eq.
    + apply map_eq. intros k. rewrite !clearProvider_metadata.
      by destruct (startsWith k (p ++ "::")).
Qed.

(** X12. Two (provider, model) pairs whose provider identifiers contain
    no colon have the same key only when they are the same pair. *)
Theorem modelKey_injective (p q n m : string) :
  colonFree p = true → colonFree q = true →
  modelKey p n = modelKey q m → p = q ∧ n = m.
Proof.
  intros Hp Hq Heq. destruct (decide (p = q)) as [->|Hne].
  - split; [done|]. by apply modelKey_inj in Heq.
  - by destruct (modelKey_other_provider p q n m Hp Hq Hne).
Qed.

Lemma modelKey_injective_witness :
  "ollama" = "ollama" ∧ "gemma3:1b" = "gemma3:1b".
Proof.
  apply (modelKey_injective "ollama" "ollama" "gemma3:1b" "gemma3:1b");
    reflexivity.
Defined.

(** Without that condition keys collide. *)
Lemma modelKey_collision : modelKey "a" "b::c" = modelKey "a::b" "c".
Proof. reflexivity. Qed.

(** ** Credentials and requests *)

Section CredentialExtras.

Variable factories : gmap string ProviderFactory.
Variable env : gmap string string.










Lemma issued_elem_of r r' p (slots : list (string * Slot)) :
  (r', p) ∈ issued r slots ↔ r' = r ∧ (p, Requested) ∈ slots.
Proof.
  unfold issued. rewrite list_elem_of_omap. split.
  - intros ([q s] & Hin & H). simpl in H. destruct s; [done|]. by injection H as -> ->.
  - intros [-> H]. by exists (p, Requested).
Qed.

Lemma issued_providers r (slots : list (string * Slot)) :
  (issued r slots).*2 `sublist_of` slots.*1.
Proof.
  induction slots as [|[p s] slots IH]; [constructor|].
  unfold issued in *. csimpl. destruct s; csimpl; by constructor.
Qed.

Lemma issued_rounds r (slots : list (string * Slot)) :
  Forall (λ x, x.1 = r) (issued r slots).
Proof.
  apply Forall_forall. intros [r' p] H. by apply issued_elem_of in H as [-> _].
Qed.

Lemma keyedLoader_issues v :
  keyedLoader env v = IssuesRequest ↔ hasValidKey (env !! v) = true.
Proof. unfold keyedLoader. by destruct (hasValidKey (env !! v)). Qed.


End CredentialExtras.

(** ** Requests over the life of the process *)

Section RequestExtras.

Variable factories : gmap string ProviderFactory.
Variable env : gmap string string.

Lemma issued_NoDup reg r :
  NoDup (issued r (map (mapperStart env reg) (fetchers env))).
Proof.
  apply (NoDup_fmap_1 snd).
  apply (sublist_NoDup _ (map (mapperStart env reg) (fetchers env)).*1);
    [|apply issued_providers].
  rewrite slots_providers. compute_done.
Qed.

Lemma step_requestsTidy e m m' :
  requestsTidy m → step factories env e m = Some m' → requestsTidy m'.
Proof.
  intros [Hnd Hreq]. destruct e as [force now|r outcomes now|c|ref]; simpl.
  - intros [= <-]. unfold refreshModels.
    destruct (negb force && _); [by split|].
    destruct (currentRefresh m); [by split|]. split; cbn [requests promises].
    + apply NoDup_app. split; [done|]. split; [|apply issued_NoDup].
      intros [r p] Hold Hnew. apply Hreq in Hold as [Hlt _].
      apply issued_elem_of in Hnew as [-> _]. lia.
    + intros r p [Hold|Hnew]%elem_of_app; rewrite length_app; cbn [length].
      * apply Hreq in Hold as [? ?]. split; [lia|done].
      * apply issued_elem_of in Hnew as [-> Hin]. split; [lia|].
        unfold fetchProviders. rewrite <- (slots_providers env (registry m)).
        apply list_elem_of_fmap. by exists (p, Requested).
  - unfold settle. destruct (promises m !! r) as [[slots| |]|]; try done.
    rewrite roundBody_settled. intros [= <-]. split; simpl; [done|].
    intros r' p H. rewrite length_insert. by apply Hreq.
  - unfold resume. destruct (callers m !! c) as [[| |r|r]|]; try done;
      destruct (promises m !! r) as [[slots| |]|]; try done; by intros [= <-].
  - by intros [= <-].
Qed.

(** X15. Over the whole life of the process no request is logged twice:
    a round asks each provider at most once, every logged request belongs
    to a round that was started, and its provider is one of the seven of
    the fetch table. *)
Theorem requests_once_per_round (m : Machine) :
  reachable factories env m →
  NoDup (requests m)
  ∧ ∀ r p, (r, p) ∈ requests m →
           is_Some (promises m !! r) ∧ p ∈ fetchProviders.
Proof.
  intros (cfg & es & Hrun).
  assert (H0 : requestsTidy (boot factories cfg)).
  { split; simpl; [constructor|]. intros r p H. by apply elem_of_nil in H. }
  assert (Hm : requestsTidy m).
  { revert Hrun H0. generalize (boot factories cfg).
    induction es as [|e es IH]; intros m0; simpl.
    - by intros [= <-].
    - destruct (step factories env e m0) as [m1|] eqn:Hs; [|done]. simpl.
      intros Hrun H0. eapply IH; [done|]. by eapply step_requestsTidy. }
  destruct Hm as [Hnd Hreq]. split; [done|].
  intros r p H. apply Hreq in H as [Hlt Hp]. split; [|done].
  by apply lookup_lt_is_Some.
Qed.

(** X16. However many non-forced calls arrive less than [1000 * 60 * 5]
    ms after [lastRefreshAt], and however they interleave with
    [getModel] calls and resuming callers, as long as no round ends in
    between: no request is issued, no round is started and
    [lastRefreshAt] stays. *)
Theorem quiet_window (es : list Event) (m m' : Machine) :
  Forall (quietEvent (lastRefreshAt m)) es →
  run factories env es m = Some m' →
  requests m' = requests m
  ∧ promises m' = promises m
  ∧ lastRefreshAt m' = lastRefreshAt m.
Proof.
  revert m. induction es as [|e es IH]; intros m Hq; simpl.
  { by intros [= <-]. }
  apply Forall_cons in Hq as [He Hq].
  destruct (step factories env e m) as [m1|] eqn:Hs; [|done]. simpl.
  assert (H1 : requests m1 = requests m ∧ promises m1 = promises m
               ∧ lastRefreshAt m1 = lastRefreshAt m).
  { destruct e as [force now|r outcomes now|c|ref]; simpl in He, Hs.
    - destruct He as [-> Hsoon]. injection Hs as <-. unfold refreshModels.
      replace (now - lastRefreshAt m <? 1000 * 60 * 5)%Z with true; [done|].
      symmetry. apply Z.ltb_lt. lia.
    - done.
    - unfold resume in Hs. destruct (callers m !! c) as [[| |r|r]|]; try done;
        destruct (promises m !! r) as [[slots| |]|]; try done; by injection Hs as <-.
    - by injection Hs as <-. }
  destruct H1 as (R1 & P1 & L1). intros Hrun.
  rewrite <- L1 in Hq. destruct (IH m1 Hq Hrun) as (R2 & P2 & L2).
  split; [congruence|]. split; congruence.
Qed.

End RequestExtras.

Lemma requests_once_per_round_witness : NoDup (requests duringSecondRound).
Proof.
  apply (requests_once_per_round providerFactories demoEnv duringSecondRound
           duringSecondRound_reachable).
Defined.

Lemma quiet_window_witness : requests afterQuietCalls = requests duringSecondRound.
Proof.
  apply (quiet_window providerFactories demoEnv quietCalls duringSecondRound
           afterQuietCalls).
  - repeat constructor; vm_compute; reflexivity.
  - vm_compute. reflexivity.
Defined.

(** ** Seeds *)

Section SeedExtras.

Variable factories : gmap string ProviderFactory.

Lemma registerModel_keeps_some p n o reg q k :
  (is_Some (lookupModel reg q k) →
   is_Some (lookupModel (registerModel factories p n o reg) q k))
  ∧ (∀ key, is_Some (modelMetadata reg !! key) →
            is_Some (modelMetadata (registerModel factories p n o reg) !! key)).
Proof.
  destruct (resolveInstance factories p n o reg) as [inst|] eqn:H.
  2: { by rewrite registerModel_skip. }
  split.
  - intros Hs. destruct (decide ((q, k) = (p, n))) as [[= -> ->]|Hne].
    + rewrite (registerModel_lookup _ _ _ _ _ _ H). eauto.
    + by rewrite registerModel_lookup_other.
  - intros key Hs. rewrite (registerModel_metadata _ _ _ _ _ _ H).
    apply lookup_insert_is_Some'. by right.
Qed.

Lemma loadCompatible_keeps_some cfg reg q k :
  is_Some (lookupModel reg q k) ∧ is_Some (modelMetadata reg !! modelKey q k) →
  is_Some (lookupModel (loadCompatible factories cfg reg) q k)
  ∧ is_Some (modelMetadata (loadCompatible factories cfg reg) !! modelKey q k).
Proof.
  intros H. unfold loadCompatible.
  apply (foldl_preserves
           (λ r, is_Some (lookupModel r q k)
                 ∧ is_Some (modelMetadata r !! modelKey q k))).
  { intros a [p ms] Ha.
    apply (foldl_preserves
             (λ r, is_Some (lookupModel r q k)
                   ∧ is_Some (modelMetadata r !! modelKey q k))); [|done].
    intros a' e [Ha1 Ha2]. unfold registerCompatible.
    split; by apply registerModel_keeps_some. }
  apply (foldl_preserves
           (λ r, is_Some (lookupModel r q k)
                 ∧ is_Some (modelMetadata r !! modelKey q k))); [|done].
  by intros a p Ha.
Qed.

End SeedExtras.

(** X17. Whatever compatible providers are configured, every model of
    the static seed table is in the catalog, with a metadata record, once
    the module is evaluated. The fallback model is among them, so the
    first [getModel()] without reference returns a catalogued handle and
    builds nothing. *)
Theorem seeds_survive_configuration (cfg : CompatibleConfig) :
  (∀ p entries e, (p, entries) ∈ staticModelSeed → e ∈ entries →
     is_Some (lookupModel (moduleInit providerFactories cfg) p (name e))
     ∧ is_Some (modelMetadata (moduleInit providerFactories cfg) !! modelKey p (name e)))
  ∧ ∃ h, getModel providerFactories None (moduleInit providerFactories cfg)
         = (Ok h, moduleInit providerFactories cfg).
Proof.
  assert (Hseeded :
    Forall (λ x : string * list ModelRegistration,
      Forall (λ e,
        is_Some (lookupModel (loadStaticSeed providerFactories emptyRegistry) x.1 (name e))
        ∧ is_Some (modelMetadata (loadStaticSeed providerFactories emptyRegistry)
                     !! modelKey x.1 (name e))) x.2) staticModelSeed)
    by compute_done.
  assert (Hall : ∀ p entries e, (p, entries) ∈ staticModelSeed → e ∈ entries →
     is_Some (lookupModel (moduleInit providerFactories cfg) p (name e))
     ∧ is_Some (modelMetadata (moduleInit providerFactories cfg) !! modelKey p (name e))).
  { intros p entries e Hp He. unfold moduleInit. apply loadCompatible_keeps_some.
    rewrite Forall_forall in Hseeded. specialize (Hseeded _ Hp). simpl in Hseeded.
    rewrite Forall_forall in Hseeded. by apply Hseeded. }
  split; [exact Hall|].
  destruct (Hall "openai" _ (seed "gpt-4.1") ltac:(left) ltac:(left)) as [[h Hh] _].
  exists h. by apply fallbackModel_catalogued.
Qed.

(** ** The catalog summary *)

Section SummaryExtras.

Variable env : gmap string string.
Variable localeCompare localeCompareBase : string → string → Z.

Lemma buildModelsInfo_elem_of reg info :
  info ∈ buildModelsInfo env localeCompare localeCompareBase reg
  ↔ ∃ p bucket,
      allModels reg !! p = Some bucket
      ∧ info = {| pi_provider := p;
                  pi_hasAPIKey := checkProviderAPIKey env reg p;
                  pi_models :=
                    sortWith (λ a b, localeCompareBase (label a) (label b))
                             (map (modelInfo reg p) (map_to_list bucket).*1) |}.
Proof.
  unfold buildModelsInfo. rewrite sortWith_elem_of.
  rewrite list_elem_of_In, in_map_iff. split.
  - intros ([p bucket] & <- & Hin). exists p, bucket. split; [|done].
    by apply elem_of_map_to_list, list_elem_of_In.
  - intros (p & bucket & Hl & ->). exists (p, bucket). split; [done|].
    by apply list_elem_of_In, elem_of_map_to_list.
Qed.

Lemma map_modelInfo_names reg p (ns : list string) :
  map mi_name (map (modelInfo reg p) ns) = ns.
Proof. induction ns as [|n ns IH]; simpl; [done|]. by rewrite IH. Qed.

(** X18. The summary has exactly one entry per provider of the catalog
    and, under each provider, exactly one entry per catalogued model
    name: no key is listed twice and none is left out. *)
Theorem buildModelsInfo_one_entry_per_key (reg : Registry) :
  let summary := buildModelsInfo env localeCompare localeCompareBase reg in
  NoDup (map pi_provider summary)
  ∧ (∀ p, p ∈ map pi_provider summary ↔ is_Some (allModels reg !! p))
  ∧ (∀ info, info ∈ summary →
       NoDup (map mi_name (pi_models info))
       ∧ ∀ n, n ∈ map mi_name (pi_models info)
              ↔ is_Some (lookupModel reg (pi_provider info) n)).
Proof.
  intros summary.
  assert (Hperm : map pi_provider summary ≡ₚ (map_to_list (allModels reg)).*1).
  { subst summary. unfold buildModelsInfo, sortWith.
    rewrite merge_sort_Permutation.
    induction (map_to_list (allModels reg)) as [|[p b] l IH]; [done|].
    csimpl. by rewrite IH. }
  split; [|split].
  - rewrite Hperm. apply NoDup_fst_map_to_list.
  - intros p. rewrite Hperm. rewrite list_elem_of_fmap. split.
    + intros ([q b] & -> & Hin). apply elem_of_map_to_list in Hin. eauto.
    + intros [b Hb]. exists (p, b). split; [done|]. by apply elem_of_map_to_list.
  - intros info Hin. apply buildModelsInfo_elem_of in Hin as (p & bucket & Hl & ->).
    simpl.
    assert (Hp : map mi_name
                   (sortWith (λ a b, localeCompareBase (label a) (label b))
                      (map (modelInfo reg p) (map_to_list bucket).*1))
                 ≡ₚ (map_to_list bucket).*1).
    { unfold sortWith. rewrite merge_sort_Permutation.
      by rewrite map_modelInfo_names. }
    split.
    + rewrite Hp. apply NoDup_fst_map_to_list.
    + intros n. rewrite Hp. unfold lookupModel. rewrite Hl. simpl.
      rewrite list_elem_of_fmap. split.
      * intros ([k h] & -> & Hk). apply elem_of_map_to_list in Hk. eauto.
      * intros [h Hh]. exists (n, h). split; [done|]. by apply elem_of_map_to_list.
Qed.

(** X19. What a summary entry shows for a model: a display name only
    when the metadata record has one that is non-empty and differs from
    the model name; the tool-call flag of the record, or false without a
    record; the image flag of the record, or, without a record, whether
    the provider is off the image allow-list. The provider's [hasAPIKey]
    is its credential check. *)
Theorem buildModelsInfo_fields (reg : Registry) (info : ProviderInfo) (mi : ModelInfo) :
  info ∈ buildModelsInfo env localeCompare localeCompareBase reg →
  mi ∈ pi_models info →
  let meta := modelMetadata reg !! modelKey (pi_provider info) (mi_name mi) in
  pi_hasAPIKey info = checkProviderAPIKey env reg (pi_provider info)
  ∧ (∀ d, mi_displayName mi = Some d
          ↔ (meta ≫= meta_displayName) = Some d ∧ d ≠ EmptyString ∧ d ≠ mi_name mi)
  ∧ mi_isToolCallUnsupported mi
    = match meta with Some r => meta_isToolCallUnsupported r | None => false end
  ∧ mi_isImageInputUnsupported mi
    = match meta with
      | Some r => meta_isImageInputUnsupported r
      | None => negb (bool_decide (pi_provider info ∈ imageInputSupportedProviders))
      end.
Proof.
  intros Hin Hmi meta. subst meta.
  apply buildModelsInfo_elem_of in Hin as (p & bucket & Hl & ->). simpl in *.
  apply sortWith_elem_of, list_elem_of_In, in_map_iff in Hmi as (n & <- & _).
  simpl. split; [done|]. split; [|split].
  - intros d. destruct (modelMetadata reg !! modelKey p n ≫= meta_displayName)
      as [d0|] eqn:Hd; [|split; [done|by intros [? _]]].
    destruct (String.eqb d0 EmptyString) eqn:E1; simpl.
    { apply String.eqb_eq in E1 as ->. split; [done|]. by intros ([= <-] & ? & _). }
    destruct (String.eqb d0 n) eqn:E2; simpl.
    { apply String.eqb_eq in E2 as ->. split; [done|]. by intros ([= <-] & _ & ?). }
    split.
    + intros [= <-]. split; [done|]. split.
      * intros ->. by rewrite String.eqb_refl in E1.
      * intros ->. by rewrite String.eqb_refl in E2.
    + by intros ([= <-] & _).
  - by destruct (modelMetadata reg !! modelKey p n).
  - by destruct (modelMetadata reg !! modelKey p n).
Qed.

(** X20. When both comparators are total and transitive, the summary is
    sorted: providers by identifier, and under each provider the models
    by their label (the display name shown, else the name). *)
Theorem buildModelsInfo_sorted (reg : Registry) :
  (∀ a b, (localeCompare a b ≤ 0)%Z ∨ (localeCompare b a ≤ 0)%Z) →
  (∀ a b c, (localeCompare a b ≤ 0)%Z → (localeCompare b c ≤ 0)%Z →
            (localeCompare a c ≤ 0)%Z) →
  (∀ a b, (localeCompareBase a b ≤ 0)%Z ∨ (localeCompareBase b a ≤ 0)%Z) →
  (∀ a b c, (localeCompareBase a b ≤ 0)%Z → (localeCompareBase b c ≤ 0)%Z →
            (localeCompareBase a c ≤ 0)%Z) →
  let summary := buildModelsInfo env localeCompare localeCompareBase reg in
  StronglySorted (λ a b, (localeCompare (pi_provider a) (pi_provider b) ≤ 0)%Z) summary
  ∧ ∀ info, info ∈ summary →
      StronglySorted (λ a b, (localeCompareBase (label a) (label b) ≤ 0)%Z)
                     (pi_models info).
Proof.
  intros Htot Htrans HtotB HtransB summary. split.
  - subst summary. unfold buildModelsInfo, sortWith.
    assert (Transitive
              (mayPrecede (λ a b, localeCompare (pi_provider a) (pi_provider b))))
      by (intros a b c; unfold mayPrecede; apply Htrans).
    assert (Total
              (mayPrecede (λ a b, localeCompare (pi_provider a) (pi_provider b))))
      by (intros a b; unfold mayPrecede; apply Htot).
    by apply StronglySorted_merge_sort.
  - intros info Hin. apply buildModelsInfo_elem_of in Hin as (p & bucket & Hl & ->).
    simpl. unfold sortWith.
    assert (Transitive (mayPrecede (λ a b, localeCompareBase (label a) (label b))))
      by (intros a b c; unfold mayPrecede; apply HtransB).
    assert (Total (mayPrecede (λ a b, localeCompareBase (label a) (label b))))
      by (intros a b; unfold mayPrecede; apply HtotB).
    by apply StronglySorted_merge_sort.
Qed.

(** ** The models route *)

Lemma keyFirst_le (a b : ProviderInfo) :
  (keyFirst a b ≤ 0)%Z ↔ (pi_hasAPIKey b = true → pi_hasAPIKey a = true).
Proof.
  unfold keyFirst. destruct (pi_hasAPIKey a), (pi_hasAPIKey b); simpl; split;
    intros H; try done; try lia; try (by discriminate (H eq_refl)).
Qed.

(** X21. The response of the models route lists the same providers as the
    summary, those with a credential first: no provider without a key
    comes before a provider with one. *)
Theorem modelsResponse_keys_first (reg : Registry) :
  let response := modelsResponse env localeCompare localeCompareBase reg in
  response ≡ₚ buildModelsInfo env localeCompare localeCompareBase reg
  ∧ ∀ i j a b, (i < j)%nat → response !! i = Some a → response !! j = Some b →
               pi_hasAPIKey b = true → pi_hasAPIKey a = true.
Proof.
  intros response. subst response. unfold modelsResponse, sortWith.
  split; [apply merge_sort_Permutation|].
  assert (Hs : StronglySorted (mayPrecede keyFirst)
                 (merge_sort (mayPrecede keyFirst)
                    (buildModelsInfo env localeCompare localeCompareBase reg))).
  { assert (Transitive (mayPrecede keyFirst))
      by (intros a b c; unfold mayPrecede; rewrite !keyFirst_le; auto).
    assert (Total (mayPrecede keyFirst)).
    { intros a b. unfold mayPrecede. rewrite !keyFirst_le.
      destruct (pi_hasAPIKey a), (pi_hasAPIKey b); auto. }
    by apply StronglySorted_merge_sort. }
  revert Hs. generalize (merge_sort (mayPrecede keyFirst)
                    (buildModelsInfo env localeCompare localeCompareBase reg)).
  intros l Hs. induction Hs as [|x l Hs IH Hx]; intros i j a b Hij Hi Hj.
  { by rewrite lookup_nil in Hi. }
  destruct j as [|j]; [lia|]. simpl in Hj. destruct i as [|i]; simpl in Hi.
  - injection Hi as ->. rewrite Forall_forall in Hx.
    apply keyFirst_le. apply Hx. by eapply list_elem_of_lookup_2.
  - apply (IH i j); [lia|done|done].
Qed.

End SummaryExtras.

Lemma seeds_survive_configuration_witness :
  is_Some (lookupModel (moduleInit providerFactories azureCompatible)
                       "ollama" "gemma3:4b").
Proof.
  apply (proj1 (seeds_survive_configuration azureCompatible) "ollama"
           [seed "gemma3:1b"; seed "gemma3:4b"; seed "gemma3:12b"] (seed "gemma3:4b")).
  - do 4 right. left.
  - right. left.
Defined.

Lemma buildModelsInfo_sorted_witness :
  StronglySorted (λ a b, (byLength (pi_provider a) (pi_provider b) ≤ 0)%Z)
                 (buildModelsInfo demoEnv byLength byLength seededRegistry).
Proof.
  apply (buildModelsInfo_sorted demoEnv byLength byLength seededRegistry);
    unfold byLength; intros; lia.
Defined.

(** ** A live OpenAI listing through a round *)




(** ** More concrete inputs *)



Lemma buildModelsInfo_fields_witness :
  mi_displayName acmeModelInfo = Some "Model One"
  ↔ (modelMetadata acmeRegistry !! modelKey "acme" "m1" ≫= meta_displayName)
    = Some "Model One"
    ∧ "Model One" ≠ EmptyString ∧ "Model One" ≠ "m1".
Proof.
  apply (buildModelsInfo_fields demoEnv byLength byLength acmeRegistry
           acmeInfo acmeModelInfo).
  - vm_compute. left.
  - left.
Defined.

Lemma getModel_keeps_catalog_witness :
  lookupModel
    (getModel providerFactories (Some {| provider := "xai"; model := "grok-9" |})
              acmeRegistry).2 "acme" "m1"
  = Some firstHandle.
Proof.
  apply (getModel_keeps_catalog providerFactories
           (Some {| provider := "xai"; model := "grok-9" |}) acmeRegistry).
  vm_compute. reflexivity.
Defined.
